(** * AnichartGraphQLReader: a shallow embedding of [read_graphql.py]

    The script posts one GraphQL query to AniList, extracts three cells per
    media entry, sorts the rows by English title and prints / copies a
    tab-separated table.  Python dictionaries are finite maps with string
    keys, exceptions are an explicit error result, and the global state
    (the [VARIABLES] mapping, standard output, the clipboard, the requests
    sent) is threaded through a state-and-exception monad. *)

From stdpp Require Import gmap strings list pretty sorting.

Local Open Scope Z_scope.
Local Open Scope string_scope.

(** ** Python values and exceptions *)

Module Py.

(** Exceptions the script can end with.  [SystemExit code] is what the
    [exit] builtin raises; [Other] stands for the exceptions of the
    transport layer ([requests]) and of the JSON decoder. *)
Inductive exn :=
| KeyError (k : string)
| TypeError
| SystemExit (code : option Z)
| Other (name : string).

Inductive result (A : Type) :=
| Ok (a : A)
| Raise (e : exn).
Arguments Ok {A} a.
Arguments Raise {A} e.

Definition bind {A B} (m : result A) (k : A → result B) : result B :=
  match m with
  | Ok a => k a
  | Raise e => Raise e
  end.

(** JSON leaves as [json.loads] gives them for the scalar fields the query
    selects (GraphQL [Int], [String], or [null]): [None], an [int] or a
    [str].  A [str] is carried as its UTF-8 text; byte-wise comparison of
    UTF-8 agrees with Python's code-point order.  The other leaves a JSON
    document can hold ([float], [bool], lists, objects) are not values of
    this type: what is proved here is about responses whose title and date
    fields are of the types the query selects. *)
Inductive scalar :=
| SNone
| SInt (n : Z)
| SStr (s : string).

#[global] Instance scalar_eq_dec : EqDecision scalar.
Proof. solve_decision. Defined.

(** [v is not None] *)
Definition is_not_None (v : scalar) : bool :=
  match v with
  | SNone => false
  | _ => true
  end.

(** [str(v)], which is what a [{}] replacement field of [str.format]
    renders. *)
Definition str (v : scalar) : string :=
  match v with
  | SNone => "None"
  | SInt n => pretty n
  | SStr s => s
  end.

(** [a < b]: defined between two [int]s and between two [str]s, a
    [TypeError] otherwise. *)
Definition lt (a b : scalar) : result bool :=
  match a, b with
  | SInt x, SInt y => Ok (x <? y)%Z
  | SStr s, SStr t => Ok (String.ltb s t)
  | _, _ => Raise TypeError
  end.

(** [d[k]] on a [dict] *)
Definition getitem {V} (d : gmap string V) (k : string) : result V :=
  match d !! k with
  | Some v => Ok v
  | None => Raise (KeyError k)
  end.

(** [k in d] on a [dict] *)
Definition contains {V} (k : string) (d : gmap string V) : bool :=
  bool_decide (is_Some (d !! k)).

(** Values of the [VARIABLES] mapping and of the keyword arguments of
    [extract_graphql_data]. *)
Inductive value :=
| VNone
| VInt (n : Z)
| VStr (s : string)
| VList (l : list string).

(** Truth value testing, as [if v:] does it. *)
Definition truthy (v : value) : bool :=
  match v with
  | VNone => false
  | VInt n => negb (n =? 0)%Z
  | VStr s => negb (String.eqb s "")
  | VList l => negb (bool_decide (l = []))
  end.

(** Exit status of the interpreter when the script ends with exception
    [e] uncaught: [SystemExit] carries its own status, where no code means
    success; any other exception prints a traceback and gives 1. *)
Definition exit_status (e : exn) : Z :=
  match e with
  | SystemExit None => 0
  | SystemExit (Some n) => n
  | _ => 1
  end.

End Py.
Import Py.

Declare Scope py_scope.
Delimit Scope py_scope with py.
Notation "'let*' x := m 'in' k" := (bind m (λ x, k))
  (at level 10, x name, m at level 100, k at level 200) : py_scope.
Local Open Scope py_scope.

(** ** Response extraction: [process_graphql] *)

(** A JSON object with scalar fields: [element['title']],
    [element['startDate']]. *)
Abbreviation json_obj := (gmap string scalar).
(** A media entry, by its object-valued fields. *)
Abbreviation media_entry := (gmap string json_obj).
(** The GraphQL envelope [{"data": {"Page": {"media": [...]}}}]. *)
Abbreviation graphql_response :=
  (gmap string (gmap string (gmap string (list media_entry)))).

(** An extracted row [[romaji_name, english_name, start_date_str]]. *)
Record row := Row {
  romaji_name : scalar;
  english_name : scalar;
  start_date_str : string
}.

(** ["{}.{}.{}".format] *)
Definition start_date_format (a b c : scalar) : string :=
  str a +:+ "." +:+ str b +:+ "." +:+ str c.

(** Lines 128-132: the condition is a short-circuiting [and] chain, so a
    component is only looked up when the ones before it are set. *)
Definition resolve_start_date (start_date : json_obj) : result string :=
  let* y := getitem start_date "year" in
  if is_not_None y then
    let* m := getitem start_date "month" in
    if is_not_None m then
      let* d := getitem start_date "day" in
      if is_not_None d then
        let* d' := getitem start_date "day" in
        let* m' := getitem start_date "month" in
        let* y' := getitem start_date "year" in
        Ok (start_date_format d' m' y')
      else Ok (start_date_format (SInt 1) (SInt 1) (SInt 1999))
    else Ok (start_date_format (SInt 1) (SInt 1) (SInt 1999))
  else Ok (start_date_format (SInt 1) (SInt 1) (SInt 1999)).

(** Lines 134-143, for one of the two names: the initial [""] is kept unless
    the key is in [element['title']] and its value is not [None]. *)
Definition resolve_name (element : media_entry) (k : string) : result scalar :=
  let name := SStr "" in
  let* t := getitem element "title" in
  if contains k t then
    let* t := getitem element "title" in
    let* v := getitem t k in
    if is_not_None v then
      let* t := getitem element "title" in
      getitem t k
    else Ok name
  else Ok name.

(** The body of the [for] loop, giving the row that is appended. *)
Definition process_element (element : media_entry) : result row :=
  let* start_date := getitem element "startDate" in
  let* start_date_str := resolve_start_date start_date in
  let* romaji_name := resolve_name element "romaji" in
  let* english_name := resolve_name element "english" in
  Ok (Row romaji_name english_name start_date_str).

(** The [for] loop: [extracted_elements] after the last iteration. *)
Fixpoint extract_elements (media_object : list media_entry) : result (list row) :=
  match media_object with
  | [] => Ok []
  | element :: rest =>
      let* r := process_element element in
      let* rs := extract_elements rest in
      Ok (r :: rs)
  end.

(** [sorted(l, key=key)]: a stable sort that only uses [<] on the keys, as
    [list.sort] does.  The element [x], which comes first in the input, is
    placed before the first [y] for which [key y < key x] fails; a
    comparison that raises makes the call raise.  On [str] keys the result
    is the one every stable sort returns ([sorted_unique] below). *)
Fixpoint sorted_insert {A} (key : A → scalar) (x : A) (l : list A)
  : result (list A) :=
  match l with
  | [] => Ok [x]
  | y :: l' =>
      let* b := lt (key y) (key x) in
      if (b : bool) then
        let* r := sorted_insert key x l' in
        Ok (y :: r)
      else Ok (x :: y :: l')
  end.

Fixpoint sorted {A} (key : A → scalar) (l : list A) : result (list A) :=
  match l with
  | [] => Ok []
  | x :: l' =>
      let* s := sorted key l' in
      sorted_insert key x s
  end.

(** Line 119: [response_data['data']['Page']['media']] *)
Definition media_object_of (response_data : graphql_response)
  : result (list media_entry) :=
  let* d := getitem response_data "data" in
  let* p := getitem d "Page" in
  getitem p "media".

Definition process_graphql (response_data : graphql_response) : result (list row) :=
  let* media_object := media_object_of response_data in
  let* extracted_elements := extract_elements media_object in
  sorted english_name extracted_elements.

(** ** The global state and the effects of the script *)

(** What [requests.post(url, headers=headers, json=request_data)] sends. *)
Record request := Request {
  req_url : string;
  req_headers : gmap string string;
  req_query : string;
  req_variables : gmap string value
}.

(** What it returns: the status code and the outcome of [response.json()]
    ([Ok None] for a body that is the JSON literal [null]). *)
Record http_response := Response {
  status_code : Z;
  json : result (option graphql_response)
}.

(** The process-wide state: the module-level [VARIABLES] dict, the text
    written to standard output, the clipboard, the requests sent so far,
    and the names of the functions of the script entered so far. *)
Record world := World {
  VARIABLES : gmap string value;
  stdout : string;
  clipboard : string;
  sent : list request;
  calls : list string
}.

Definition M (A : Type) : Type := world → result A * world.

Definition ret {A} (a : A) : M A := λ w, (Ok a, w).

Definition bindM {A B} (m : M A) (k : A → M B) : M B :=
  λ w, match m w with
       | (Ok a, w') => k a w'
       | (Raise e, w') => (Raise e, w')
       end.

Definition lift {A} (r : result A) : M A := λ w, (r, w).

Notation "'let!' x := m 'in' k" := (bindM m (λ x, k))
  (at level 10, x name, m at level 100, k at level 200) : py_scope.
Notation "m ';;' k" := (bindM m (λ _, k))
  (at level 100, k at level 200, right associativity) : py_scope.

Definition nl : string := String (Ascii.ascii_of_N 10) "".
Definition tab : string := String (Ascii.ascii_of_N 9) "".

(** [print(s)] *)
Definition print (s : string) : M unit :=
  λ w, (Ok tt, World (VARIABLES w) (stdout w +:+ s +:+ nl) (clipboard w)
                     (sent w) (calls w)).

(** [pyperclip.copy(s)] *)
Definition pyperclip_copy (s : string) : M unit :=
  λ w, (Ok tt, World (VARIABLES w) (stdout w) s (sent w) (calls w)).

(** [exit(code)]: raises [SystemExit]; nothing after it runs. *)
Definition py_exit (code : option Z) : M unit :=
  λ w, (Raise (SystemExit code), w).

(** [VARIABLES[k] = v] *)
Definition setitem_VARIABLES (k : string) (v : value) : M unit :=
  λ w, (Ok tt, World (<[k := v]> (VARIABLES w)) (stdout w) (clipboard w)
                     (sent w) (calls w)).

Definition read_VARIABLES : M (gmap string value) :=
  λ w, (Ok (VARIABLES w), w).

(** Entering a function of the script is recorded in [calls]. *)
Definition enter {A} (name : string) (body : M A) : M A :=
  λ w, body (World (VARIABLES w) (stdout w) (clipboard w) (sent w)
                   (calls w ++ [name])).

Definition QUERY_STRING : string := "

query GetMedia($status: [MediaStatus!], $format: [MediaFormat!], $season: MediaSeason, $year: Int){
    Page{
        media(status_in: $status, format_in: $format, season: $season, seasonYear: $year){
            title{
                romaji
                english
                native
            }
            id
            startDate{
                year
                month
                day
            }
            endDate{
                year
                month
                day
            }
            episodes
            seasonInt
            seasonYear
            season
            format
            status
            duration
            genres
            meanScore
            popularity
            trending
            stats{
                scoreDistribution{
                    score
                    amount
                }
                statusDistribution{
                    status
                    amount
                }
            }
        }
    }
}

".

Definition GRAPH_QL_URL : string := "https://graphql.anilist.co/".

(** The module-level value of [VARIABLES]. *)
Definition VARIABLES_default : gmap string value :=
  {[ "status" := VList ["RELEASING"; "NOT_YET_RELEASED"];
     "format" := VList ["TV"; "MOVIE"; "TV_SHORT"; "OVA"; "ONA"];
     "year" := VInt 2024;
     "season" := VStr "SUMMER" ]}.

Definition initial_world : world :=
  World VARIABLES_default "" "" [] [].

(** The format ["{} \t {} \t {} \n"] applied to the three cells of [entry]. *)
Definition loop_string (entry : row) : string :=
  str (romaji_name entry) +:+ " " +:+ tab +:+ " " +:+
  str (english_name entry) +:+ " " +:+ tab +:+ " " +:+
  start_date_str entry +:+ " " +:+ nl.

(** [string_to_copy] after the loop of [tabulate_anichart_data]. *)
Definition string_to_copy (data_set : list row) : string :=
  fold_left (λ acc entry, acc +:+ loop_string entry) data_set "".

Definition tabulate_anichart_data (data_set : list row) : M unit :=
  enter "tabulate_anichart_data" (
    print (nl +:+ "--------------------" +:+ nl);;
    let string_to_copy := string_to_copy data_set in
    print string_to_copy;;
    pyperclip_copy string_to_copy;;
    print (nl +:+ nl +:+ "--------------------" +:+ nl +:+ nl);;
    print ("Elements: " +:+ pretty (length data_set))).

(** [response_data['data']] when [response_data] may be [None]: subscripting
    [None] is a [TypeError]. *)
Definition subscriptable {A} (v : option A) : result A :=
  match v with
  | Some d => Ok d
  | None => Raise TypeError
  end.

Section Transport.

(** The network: what [requests.post] answers to a request, given the
    requests sent before it; a transport failure is an exception. *)
Variable post : list request → request → result http_response.

Definition requests_post (url : string) (headers : gmap string string)
    (request_data : string * gmap string value) : M http_response :=
  λ w, let rq := Request url headers (fst request_data) (snd request_data) in
       (post (sent w) rq,
        World (VARIABLES w) (stdout w) (clipboard w) (sent w ++ [rq]) (calls w)).

Definition query_graphql (query : string) (variables : gmap string value)
    (url : string) : M (option graphql_response) :=
  enter "query_graphql" (
    let headers : gmap string string :=
      {[ "Content-Type" := "application/json" ]} in
    let request_data := (query, variables) in
    let! response := requests_post url headers request_data in
    if (status_code response =? 200)%Z then
      let! data := lift (json response) in
      ret data
    else
      ret None).

Definition extract_graphql_data
    (status_var format_var year_var season_var : value) : M unit :=
  enter "extract_graphql_data" (
    (if truthy status_var then setitem_VARIABLES "status" status_var
     else ret tt);;
    (if truthy format_var then setitem_VARIABLES "format" format_var
     else ret tt);;
    (if truthy year_var then setitem_VARIABLES "year" year_var
     else ret tt);;
    (if truthy season_var then setitem_VARIABLES "season" season_var
     else ret tt);;
    let! variables := read_VARIABLES in
    let! response_data := query_graphql QUERY_STRING variables GRAPH_QL_URL in
    (if bool_decide (response_data = None) then
       print "No data returned from query graphql!";;
       py_exit None
     else ret tt);;
    let! processed_data :=
      enter "process_graphql"
        (lift (let* d := subscriptable response_data in process_graphql d)) in
    tabulate_anichart_data processed_data).

(** The [__main__] block. *)
Definition main : M unit :=
  extract_graphql_data VNone (VList ["TV"]) (VInt 2024) (VStr "SUMMER").

End Transport.

(** ** Definitions used to state the claims *)

(** A key that is a [str]. *)
Definition is_text (v : scalar) : bool :=
  match v with
  | SStr _ => true
  | _ => false
  end.

(** The order of two [str] keys: [String.leb] on their text. *)
Definition text_le (a b : scalar) : Prop :=
  String.leb (str a) (str b) = true.

(** An entry shaped as the query asks for it: a [title] object whose
    [english] field is a string, [null] or absent, and a [startDate] object
    with the keys [year], [month] and [day] (each may be [null]). *)
Definition text_or_null (o : option scalar) : bool :=
  match o with
  | Some (SInt _) => false
  | _ => true
  end.

Definition schema_entry (e : media_entry) : bool :=
  match e !! "title", e !! "startDate" with
  | Some t, Some sd =>
      text_or_null (t !! "english") &&
      contains "year" sd && contains "month" sd && contains "day" sd
  | _, _ => false
  end.

(** The header the script sends. *)
Definition json_headers : gmap string string :=
  {[ "Content-Type" := "application/json" ]}.

(** What [query_graphql] returns for the answer of the transport. *)
Definition answer (r : result http_response) : result (option graphql_response) :=
  match r with
  | Ok response => if (status_code response =? 200)%Z then json response else Ok None
  | Raise e => Raise e
  end.

(** [VARIABLES] after the four conditional assignments of
    [extract_graphql_data]. *)
Definition override (k : string) (v : value) (vars : gmap string value)
  : gmap string value :=
  if truthy v then <[k := v]> vars else vars.

Definition overridden (status_var format_var year_var season_var : value)
    (vars : gmap string value) : gmap string value :=
  override "season" season_var
    (override "year" year_var
       (override "format" format_var
          (override "status" status_var vars))).

(** The diagnostic of line 205. *)
Definition no_data_message : string := "No data returned from query graphql!".

(** Two canned transports: one that answers 404 to everything, one that
    answers 200 with a given body. *)
Definition post_404 : list request → request → result http_response :=
  λ _ _, Ok (Response 404 (Ok None)).

Definition post_200 (body : graphql_response)
  : list request → request → result http_response :=
  λ _ _, Ok (Response 200 (Ok (Some body))).

(** The arguments of one call of [extract_graphql_data], and the state
    that a call, or a sequence of calls within one process, leaves behind
    (whatever each call returns or raises). *)
Definition call_args : Type := value * value * value * value.

Definition state_after (post : list request → request → result http_response)
    (args : call_args) (w : world) : world :=
  let '(status_var, format_var, year_var, season_var) := args in
  snd (extract_graphql_data post status_var format_var year_var season_var w).

Fixpoint state_after_calls (post : list request → request → result http_response)
    (later : list call_args) (w : world) : world :=
  match later with
  | [] => w
  | args :: later' => state_after_calls post later' (state_after post args w)
  end.

Definition all_falsy (args : call_args) : bool :=
  let '(status_var, format_var, year_var, season_var) := args in
  negb (truthy status_var) && negb (truthy format_var) &&
  negb (truthy year_var) && negb (truthy season_var).

(** The argument that a call passes for the key [k] of [VARIABLES]; a key
    other than the four has no parameter, which is as if [None] were
    passed. *)
Definition arg_for (k : string) (args : call_args) : value :=
  let '(status_var, format_var, year_var, season_var) := args in
  if decide (k = "status") then status_var
  else if decide (k = "format") then format_var
  else if decide (k = "year") then year_var
  else if decide (k = "season") then season_var
  else VNone.

(** *** Sample responses *)

Definition sample_date (y m d : scalar) : json_obj :=
  {[ "year" := y; "month" := m; "day" := d ]}.

Definition sample_entry (t sd : json_obj) : media_entry :=
  {[ "title" := t; "startDate" := sd ]}.

Definition sample_response (media : list media_entry) : graphql_response :=
  {[ "data" := {[ "Page" := {[ "media" := media ]} ]} ]}.

Definition bravo : media_entry :=
  sample_entry {[ "romaji" := SStr "Buraboo"; "english" := SStr "Bravo" ]}
    (sample_date (SInt 2024) (SInt 7) (SInt 3)).

Definition alpha : media_entry :=
  sample_entry {[ "romaji" := SStr "Arufa"; "english" := SStr "Alpha" ]}
    (sample_date SNone (SInt 5) (SInt 1)).

(** [title.romaji] is [null]. *)
Definition foo_null : media_entry :=
  sample_entry {[ "romaji" := SNone; "english" := SStr "Foo" ]}
    (sample_date (SInt 2024) (SInt 7) (SInt 3)).

(** The [year] key of [startDate] is absent. *)
Definition no_year : media_entry :=
  sample_entry ∅ {[ "month" := SInt 5; "day" := SInt 1 ]}.

(** An entry whose title has no [english] key at all. *)
Definition no_english : media_entry :=
  sample_entry {[ "romaji" := SStr "Foo" ]}
    (sample_date (SInt 2024) (SInt 7) (SInt 3)).

(** *** Definitions used to state further properties *)

(** A key that is an [int]. *)
Definition is_int (v : scalar) : bool :=
  match v with
  | SInt _ => true
  | _ => false
  end.

(** The four keys of [VARIABLES]. *)
Definition VARIABLES_keys : gset string :=
  {[ "status"; "format"; "year"; "season" ]}.

(** A transport that fails with exception [e], and one that gives the same
    answer to every request. *)
Definition post_raises (e : exn)
  : list request → request → result http_response :=
  λ _ _, Raise e.

Definition post_answers (response : http_response)
  : list request → request → result http_response :=
  λ _ _, Ok response.

(** The keys [process_graphql] can raise a [KeyError] for. *)
Definition unguarded_keys : list string :=
  ["data"; "Page"; "media"; "startDate"; "year"; "month"; "day"; "title"].

(** ** The order on [str] keys *)

Section string_order.

Lemma ascii_compare_refl a : Ascii.compare a a = Eq.
Proof. apply N.compare_refl. Qed.

Lemma ascii_compare_lt_trans a b c :
  Ascii.compare a b = Lt → Ascii.compare b c = Lt → Ascii.compare a c = Lt.
Proof.
  unfold Ascii.compare. rewrite !N.compare_lt_iff. apply N.lt_trans.
Qed.

Lemma string_compare_refl s : String.compare s s = Eq.
Proof. induction s as [|a s IH]; simpl; [done|]. by rewrite ascii_compare_refl. Qed.

Lemma string_compare_lt_trans s t u :
  String.compare s t = Lt → String.compare t u = Lt → String.compare s u = Lt.
Proof.
  revert t u. induction s as [|a s IH]; intros [|b t] [|c u]; simpl; try done.
  destruct (Ascii.compare a b) eqn:Hab; try done;
    destruct (Ascii.compare b c) eqn:Hbc; try done; intros Hst Htu.
  - apply Ascii.compare_eq_iff in Hab, Hbc. subst.
    rewrite ascii_compare_refl. eauto.
  - apply Ascii.compare_eq_iff in Hab. subst. by rewrite Hbc.
  - apply Ascii.compare_eq_iff in Hbc. subst. by rewrite Hab.
  - by rewrite (ascii_compare_lt_trans _ _ _ Hab Hbc).
Qed.

Lemma string_ltb_irrefl s : String.ltb s s = false.
Proof. unfold String.ltb. by rewrite string_compare_refl. Qed.

Lemma string_ltb_leb s t : String.ltb s t = true → String.leb s t = true.
Proof. unfold String.ltb, String.leb. by destruct (String.compare s t). Qed.

Lemma string_ltb_false_leb s t : String.ltb s t = false → String.leb t s = true.
Proof.
  unfold String.ltb, String.leb. rewrite (String.compare_antisym s t).
  by destruct (String.compare t s).
Qed.

Lemma string_leb_trans s t u :
  String.leb s t = true → String.leb t u = true → String.leb s u = true.
Proof.
  unfold String.leb.
  destruct (String.compare s t) eqn:Hst; try done;
    destruct (String.compare t u) eqn:Htu; try done; intros _ _.
  - apply String.compare_eq_iff in Hst, Htu. subst.
    by rewrite string_compare_refl.
  - apply String.compare_eq_iff in Hst. subst. by rewrite Htu.
  - apply String.compare_eq_iff in Htu. subst. by rewrite Hst.
  - by rewrite (string_compare_lt_trans _ _ _ Hst Htu).
Qed.

Lemma string_leb_empty s : String.leb "" s = true.
Proof. by destruct s. Qed.

Lemma string_leb_nonempty_empty c s : String.leb (String c s) "" = false.
Proof. done. Qed.

End string_order.

(** ** The error monad *)

Lemma bind_Ok {A B} (m : result A) (k : A → result B) b :
  bind m k = Ok b ↔ ∃ a, m = Ok a ∧ k a = Ok b.
Proof.
  destruct m as [a|e]; simpl; split.
  - eauto.
  - intros (a' & Ha & Hk). by simplify_eq.
  - done.
  - intros (a' & Ha & Hk). done.
Qed.

Lemma getitem_Ok {V} (d : gmap string V) k v :
  getitem d k = Ok v ↔ d !! k = Some v.
Proof. unfold getitem. destruct (d !! k); split; congruence. Qed.

Lemma getitem_lookup {V} (d : gmap string V) k v :
  d !! k = Some v → getitem d k = Ok v.
Proof. apply getitem_Ok. Qed.

(** ** [sorted]: permutation, order, stability *)

Section sorted_facts.
Context {A : Type} (key : A → scalar).

Lemma sorted_insert_Permutation x l l' :
  sorted_insert key x l = Ok l' → l' ≡ₚ x :: l.
Proof.
  revert l'. induction l as [|y l IH]; simpl; intros l' H.
  - by injection H as <-.
  - apply bind_Ok in H as ([] & _ & H).
    + apply bind_Ok in H as (r & Hr & [= <-]).
      rewrite (IH _ Hr). apply Permutation_swap.
    + by injection H as <-.
Qed.

Lemma sorted_Permutation l l' : sorted key l = Ok l' → l' ≡ₚ l.
Proof.
  revert l'. induction l as [|x l IH]; simpl; intros l' H.
  - by injection H as <-.
  - apply bind_Ok in H as (s & Hs & H).
    rewrite (sorted_insert_Permutation _ _ _ H). by rewrite (IH _ Hs).
Qed.

Lemma sorted_length l l' : sorted key l = Ok l' → length l' = length l.
Proof. intros H. by rewrite (sorted_Permutation _ _ H). Qed.

Lemma sorted_insert_text x l :
  is_text (key x) = true → Forall (λ y, is_text (key y) = true) l →
  ∃ l', sorted_insert key x l = Ok l'.
Proof.
  intros Hx. induction 1 as [|y l Hy _ [r IH]]; simpl; [eauto|].
  destruct (key y), (key x); try done; simpl.
  destruct (String.ltb _ _); [|eauto]. rewrite IH. simpl. eauto.
Qed.

Lemma sorted_text l :
  Forall (λ y, is_text (key y) = true) l → ∃ l', sorted key l = Ok l'.
Proof.
  induction 1 as [|x l Hx Hl [s IH]]; simpl; [eauto|].
  rewrite IH. simpl. apply sorted_insert_text; [done|].
  by rewrite (sorted_Permutation _ _ IH).
Qed.

Lemma lt_text_true a b :
  lt a b = Ok true → is_text a = true → text_le a b ∧ a ≠ b.
Proof.
  destruct a, b; try done; simpl. intros [= H] _. split.
  - by apply string_ltb_leb.
  - intros [= ->]. by rewrite string_ltb_irrefl in H.
Qed.

Lemma lt_text_false a b :
  lt a b = Ok false → is_text a = true → text_le b a.
Proof.
  destruct a, b; try done; simpl. intros [= H] _.
  by apply string_ltb_false_leb.
Qed.

Lemma lt_Ok_irrefl a b : lt a b = Ok true → a ≠ b.
Proof.
  destruct a, b; try done; simpl; intros [= H] [= ->].
  - lia.
  - by rewrite string_ltb_irrefl in H.
Qed.

Local Abbreviation R := (λ a b : A, text_le (key a) (key b)).

Lemma sorted_insert_StronglySorted x l l' :
  Forall (λ y, is_text (key y) = true) l →
  StronglySorted R l → sorted_insert key x l = Ok l' → StronglySorted R l'.
Proof.
  intros Ht Hs. revert l'.
  induction Hs as [|y l Hs IH Hy]; simpl; intros l' H.
  - injection H as <-. repeat constructor.
  - apply Forall_cons in Ht as [Hty Ht].
    apply bind_Ok in H as ([] & Hlt & H).
    + apply bind_Ok in H as (r & Hr & [= <-]).
      constructor; [by apply IH|].
      rewrite (sorted_insert_Permutation _ _ _ Hr).
      constructor; [|done]. by apply lt_text_true in Hlt as [? _].
    + injection H as <-.
      apply lt_text_false in Hlt; [|done].
      constructor; [by constructor|]. constructor; [done|].
      eapply Forall_impl; [exact Hy|]. intros z Hz. unfold text_le in *.
      by eapply string_leb_trans.
Qed.

Lemma sorted_StronglySorted l l' :
  Forall (λ y, is_text (key y) = true) l →
  sorted key l = Ok l' → StronglySorted R l'.
Proof.
  intros Ht. revert l'.
  induction Ht as [|x l Hx Ht IH]; simpl; intros l' H.
  - injection H as <-. constructor.
  - apply bind_Ok in H as (s & Hs & H).
    eapply sorted_insert_StronglySorted; [|by apply IH|done].
    by rewrite (sorted_Permutation _ _ Hs).
Qed.

(** Stability: the rows with a given key come out in their input order. *)
Lemma sorted_insert_filter (k : scalar) x l l' :
  sorted_insert key x l = Ok l' →
  filter (λ y, key y = k) l' = filter (λ y, key y = k) (x :: l).
Proof.
  revert l'. induction l as [|y l IH]; simpl; intros l' H.
  - by injection H as <-.
  - apply bind_Ok in H as ([] & Hlt & H); [|by injection H as <-].
    apply bind_Ok in H as (r & Hr & [= <-]).
    apply lt_Ok_irrefl in Hlt.
    rewrite !filter_cons, (IH _ Hr), !filter_cons.
    repeat case_decide; congruence.
Qed.

Lemma sorted_filter (k : scalar) l l' :
  sorted key l = Ok l' →
  filter (λ y, key y = k) l' = filter (λ y, key y = k) l.
Proof.
  revert l'. induction l as [|x l IH]; simpl; intros l' H.
  - by injection H as <-.
  - apply bind_Ok in H as (s & Hs & H).
    rewrite (sorted_insert_filter _ _ _ _ H), !filter_cons.
    by rewrite (IH _ Hs).
Qed.

Lemma text_le_antisym a b :
  is_text a = true → is_text b = true → text_le a b → text_le b a → a = b.
Proof.
  destruct a, b; try done; simpl. unfold text_le; simpl.
  intros _ _ H1 H2. f_equal. by apply String.leb_antisym.
Qed.

(** A list ordered by key is determined by its rows of each key: whatever
    stable sorting algorithm is run, it returns the list [sorted] does. *)
Lemma stable_sorted_unique l1 l2 :
  Forall (λ y, is_text (key y) = true) l1 →
  StronglySorted R l1 → StronglySorted R l2 →
  (∀ k, filter (λ y, key y = k) l1 = filter (λ y, key y = k) l2) →
  l1 = l2.
Proof.
  intros Ht Hs1. revert l2.
  induction Hs1 as [|x l1 Hs1 IH Hx]; intros l2 Hs2 Hf.
  - destruct l2 as [|y l2]; [done|].
    specialize (Hf (key y)). rewrite filter_cons_True in Hf by done. done.
  - apply Forall_cons in Ht as [Htx Ht].
    destruct l2 as [|y l2].
    { specialize (Hf (key x)). rewrite filter_cons_True in Hf by done. done. }
    apply StronglySorted_inv in Hs2 as [Hs2 Hy].
    assert (key x = key y) as Hk.
    { destruct (decide (key x = key y)) as [|Hne]; [done|].
      pose proof (Hf (key y)) as Hfy. pose proof (Hf (key x)) as Hfx.
      rewrite filter_cons_False, (filter_cons_True _ y) in Hfy by done.
      rewrite filter_cons_True, (filter_cons_False _ y) in Hfx by done.
      assert (y ∈ l1) as Hy1.
      { eapply (list_elem_of_filter (λ z, key z = key y)).
        rewrite Hfy. apply elem_of_cons. by left. }
      assert (x ∈ l2) as Hx2.
      { eapply (list_elem_of_filter (λ z, key z = key x)).
        rewrite <- Hfx. apply elem_of_cons. by left. }
      rewrite Forall_forall in Hx, Hy, Ht.
      apply text_le_antisym; [done|by apply Ht|by apply Hx|by apply Hy]. }
    pose proof (Hf (key x)) as Hfx.
    rewrite filter_cons_True, (filter_cons_True _ y) in Hfx by done.
    injection Hfx as <- Hfx. f_equal. apply IH; [done..|].
    intros k. specialize (Hf k). rewrite !filter_cons in Hf.
    case_decide; [by injection Hf|done].
Qed.

Lemma sorted_unique l out out' :
  Forall (λ y, is_text (key y) = true) l →
  sorted key l = Ok out →
  StronglySorted R out' →
  (∀ k, filter (λ y, key y = k) out' = filter (λ y, key y = k) l) →
  out' = out.
Proof.
  intros Ht Hout Hs' Hf. symmetry. apply stable_sorted_unique.
  - by rewrite (sorted_Permutation _ _ Hout).
  - by eapply sorted_StronglySorted.
  - done.
  - intros k. by rewrite Hf, (sorted_filter _ _ _ Hout).
Qed.

End sorted_facts.

(** ** Extraction of one entry *)

Lemma fallback_date :
  start_date_format (SInt 1) (SInt 1) (SInt 1999) = "1.1.1999".
Proof. reflexivity. Qed.

Lemma resolve_start_date_lookup (sd : json_obj) y m d :
  sd !! "year" = Some y → sd !! "month" = Some m → sd !! "day" = Some d →
  resolve_start_date sd =
    Ok (if is_not_None y && is_not_None m && is_not_None d
        then start_date_format d m y else "1.1.1999").
Proof.
  intros Hy Hm Hd. unfold resolve_start_date.
  rewrite !(getitem_lookup _ _ _ Hy), !(getitem_lookup _ _ _ Hm),
    !(getitem_lookup _ _ _ Hd). simpl.
  by destruct (is_not_None y), (is_not_None m), (is_not_None d).
Qed.

Lemma resolve_name_lookup (e : media_entry) (t : json_obj) k :
  e !! "title" = Some t →
  resolve_name e k =
    Ok (match t !! k with
        | Some v => if is_not_None v then v else SStr ""
        | None => SStr ""
        end).
Proof.
  intros Ht. unfold resolve_name, contains.
  rewrite !(getitem_lookup _ _ _ Ht). simpl.
  destruct (t !! k) as [v|] eqn:Hk.
  - rewrite bool_decide_true by eauto.
    rewrite !(getitem_lookup _ _ _ Hk). simpl. by destruct (is_not_None v).
  - rewrite bool_decide_false; [done|]. by intros [? ?].
Qed.

Lemma process_element_lookup (e : media_entry) (t sd : json_obj) ds :
  e !! "title" = Some t → e !! "startDate" = Some sd →
  resolve_start_date sd = Ok ds →
  ∃ r, process_element e = Ok r ∧ start_date_str r = ds ∧
       resolve_name e "romaji" = Ok (romaji_name r) ∧
       resolve_name e "english" = Ok (english_name r).
Proof.
  intros Ht Hsd Hds. unfold process_element.
  rewrite (getitem_lookup _ _ _ Hsd). simpl. rewrite Hds. simpl.
  rewrite !(resolve_name_lookup _ _ _ Ht). simpl. eauto.
Qed.

Lemma extract_elements_Forall2 media rows :
  extract_elements media = Ok rows ↔
  Forall2 (λ e r, process_element e = Ok r) media rows.
Proof.
  revert rows. induction media as [|e media IH]; simpl; intros rows.
  - split; [by intros [= <-]; constructor|]. by inversion 1.
  - rewrite bind_Ok. split.
    + intros (r & Hr & H). apply bind_Ok in H as (rs & Hrs & [= <-]).
      constructor; [done|]. by apply IH.
    + inversion 1 as [|? r ? rs Hr Hrs]; subst. exists r. split; [done|].
      apply bind_Ok. exists rs. split; [by apply IH|done].
Qed.

Lemma process_element_schema e :
  schema_entry e = true →
  ∃ r, process_element e = Ok r ∧ is_text (english_name r) = true.
Proof.
  unfold schema_entry, contains.
  destruct (e !! "title") as [t|] eqn:Ht; [|done].
  destruct (e !! "startDate") as [sd|] eqn:Hsd; [|done].
  rewrite !andb_true_iff, !bool_decide_eq_true.
  intros [[[Hen [y Hy]] [m Hm]] [d Hd]].
  destruct (process_element_lookup e t sd _ Ht Hsd
              (resolve_start_date_lookup sd y m d Hy Hm Hd))
    as (r & Hr & _ & _ & He).
  exists r. split; [done|].
  rewrite (resolve_name_lookup _ _ _ Ht) in He. injection He as <-.
  destruct (t !! "english") as [[]|]; done.
Qed.

Lemma extract_elements_schema media :
  Forall (λ e, schema_entry e = true) media →
  ∃ rows, extract_elements media = Ok rows ∧
          Forall (λ r, is_text (english_name r) = true) rows.
Proof.
  induction 1 as [|e media He _ (rows & Hrows & Ht)]; simpl; [eauto|].
  destruct (process_element_schema e He) as (r & -> & Hr). simpl.
  rewrite Hrows. simpl. eauto.
Qed.

(** ** Entries outside the shape the query asks for *)

(** A missing [title] key, a missing date component and two English titles
    of different types each end [process_graphql] with an exception. *)
Example missing_title_raises :
  process_graphql
    (sample_response [{[ "startDate" := sample_date SNone SNone SNone ]}])
  = Raise (KeyError "title").
Proof. reflexivity. Qed.

Example missing_year_raises :
  process_graphql (sample_response [no_year]) = Raise (KeyError "year").
Proof. reflexivity. Qed.

Example mixed_titles_raise :
  process_graphql
    (sample_response
       [bravo; sample_entry {[ "english" := SInt 86 ]} (sample_date SNone SNone SNone)])
  = Raise TypeError.
Proof. reflexivity. Qed.

(** A [null] year short-circuits the test of line 128: the other components
    are not looked up, so they may even be absent. *)
Example null_year_short_circuits :
  resolve_start_date {[ "year" := SNone ]} = Ok "1.1.1999".
Proof. reflexivity. Qed.

(** ** Claims on [process_graphql] *)

(** C1, as stated, fails: a response whose media list is present, with one
    entry whose [startDate] lacks the [year] key, gives no row at all:
    [process_graphql] raises [KeyError] instead of applying the fallback. *)
Lemma C1_counterexample :
  ¬ (∀ (r : graphql_response) (media : list media_entry),
        media_object_of r = Ok media →
        ∃ rows, process_graphql r = Ok rows ∧ length rows = length media).
Proof.
  intros H.
  destruct (H (sample_response [no_year]) [no_year] eq_refl) as (rows & Hr & _).
  vm_compute in Hr. discriminate.
Qed.

(** C1 (amended): for every response whose [data.Page.media] list is present
    and whose entries each have a [title] object (its [english] field a
    string, [null] or absent) and a [startDate] object with [year], [month]
    and [day] keys (each possibly [null]), [process_graphql] returns a list
    with exactly one row per entry. *)
Theorem process_graphql_one_row_per_entry
    (r : graphql_response) (media : list media_entry) :
  media_object_of r = Ok media →
  Forall (λ e, schema_entry e = true) media →
  ∃ rows, process_graphql r = Ok rows ∧ length rows = length media.
Proof.
  intros Hm Hs. unfold process_graphql. rewrite Hm. simpl.
  destruct (extract_elements_schema media Hs) as (rows & Hrows & Ht).
  rewrite Hrows. simpl.
  destruct (sorted_text english_name rows Ht) as (out & Hout).
  exists out. split; [done|].
  rewrite (sorted_length _ _ _ Hout).
  apply extract_elements_Forall2 in Hrows. symmetry.
  by eapply Forall2_length.
Qed.

Lemma process_graphql_one_row_per_entry_witness :
  ∃ rows, process_graphql (sample_response [bravo; foo_null; alpha]) = Ok rows
          ∧ length rows = 3%nat.
Proof.
  apply (process_graphql_one_row_per_entry
           (sample_response [bravo; foo_null; alpha]) [bravo; foo_null; alpha]).
  - reflexivity.
  - repeat constructor.
Defined.

(** C2: for an entry whose [startDate] carries the three components, the
    date cell of its row is [day.month.year] when all three are non-null and
    the fallback ["1.1.1999"] as soon as one of them is [null]. *)
Theorem start_date_cell
    (e : media_entry) (t sd : json_obj) (y m d : scalar) :
  e !! "title" = Some t →
  e !! "startDate" = Some sd →
  sd !! "year" = Some y → sd !! "month" = Some m → sd !! "day" = Some d →
  ∃ r, process_element e = Ok r ∧
       start_date_str r =
         if is_not_None y && is_not_None m && is_not_None d
         then str d +:+ "." +:+ str m +:+ "." +:+ str y
         else "1.1.1999".
Proof.
  intros Ht Hsd Hy Hm Hd.
  destruct (process_element_lookup e t sd _ Ht Hsd
              (resolve_start_date_lookup sd y m d Hy Hm Hd))
    as (r & Hr & Hds & _).
  exists r. split; [done|]. by rewrite Hds.
Qed.

(** The two dates of the claim: [{year: 2024, month: 7, day: 3}] and
    [{year: null, month: 5, day: 1}]. *)
Lemma start_date_cell_witness :
  (∃ r, process_element bravo = Ok r ∧ start_date_str r = "3.7.2024") ∧
  (∃ r, process_element alpha = Ok r ∧ start_date_str r = "1.1.1999").
Proof.
  split.
  - exact (start_date_cell bravo
             {[ "romaji" := SStr "Buraboo"; "english" := SStr "Bravo" ]}
             (sample_date (SInt 2024) (SInt 7) (SInt 3))
             (SInt 2024) (SInt 7) (SInt 3)
             eq_refl eq_refl eq_refl eq_refl eq_refl).
  - exact (start_date_cell alpha
             {[ "romaji" := SStr "Arufa"; "english" := SStr "Alpha" ]}
             (sample_date SNone (SInt 5) (SInt 1))
             SNone (SInt 5) (SInt 1)
             eq_refl eq_refl eq_refl eq_refl eq_refl).
Defined.

Lemma process_element_title_irrelevant (e : media_entry) (t1 t2 : json_obj) :
  t1 !! "romaji" ≫= (λ v, if is_not_None v then Some v else None) =
  t2 !! "romaji" ≫= (λ v, if is_not_None v then Some v else None) →
  t1 !! "english" ≫= (λ v, if is_not_None v then Some v else None) =
  t2 !! "english" ≫= (λ v, if is_not_None v then Some v else None) →
  process_element (<["title" := t1]> e) = process_element (<["title" := t2]> e).
Proof.
  intros Hr He. unfold process_element.
  assert (∀ t : json_obj,
    getitem (<["title" := t]> e) "startDate" = getitem e "startDate") as Hsd.
  { intros t. unfold getitem. by rewrite lookup_insert_ne. }
  rewrite !Hsd.
  destruct (getitem e "startDate") as [sd|]; [simpl|done].
  destruct (resolve_start_date sd); [simpl|done].
  rewrite !(resolve_name_lookup _ t1) by apply lookup_insert_eq.
  rewrite !(resolve_name_lookup _ t2) by apply lookup_insert_eq.
  simpl.
  assert (∀ k,
    t1 !! k ≫= (λ v, if is_not_None v then Some v else None) =
    t2 !! k ≫= (λ v, if is_not_None v then Some v else None) →
    match t1 !! k with
    | Some v => if is_not_None v then v else SStr ""
    | None => SStr ""
    end =
    match t2 !! k with
    | Some v => if is_not_None v then v else SStr ""
    | None => SStr ""
    end) as Hcell.
  { intros k. destruct (t1 !! k) as [[]|], (t2 !! k) as [[]|]; simpl; congruence. }
  by rewrite (Hcell _ Hr), (Hcell _ He).
Qed.

(** C3: the romaji and english cells of a row are the title field when it
    is present and non-null, and the empty string when the key is absent or
    its value is [null]; replacing an absent key by an explicit [null]
    changes nothing in the output. *)
Theorem title_cells
    (e : media_entry) (t sd : json_obj) (y m d : scalar) :
  e !! "title" = Some t →
  e !! "startDate" = Some sd →
  sd !! "year" = Some y → sd !! "month" = Some m → sd !! "day" = Some d →
  ∃ r, process_element e = Ok r ∧
    (∀ k cell,
        (k = "romaji" ∧ cell = romaji_name r) ∨
        (k = "english" ∧ cell = english_name r) →
        (∀ v, t !! k = Some v → v ≠ SNone → cell = v) ∧
        (t !! k = None → cell = SStr "") ∧
        (t !! k = Some SNone → cell = SStr "")) ∧
    (∀ k, process_element (<["title" := <[k := SNone]> t]> e) =
          process_element (<["title" := delete k t]> e)).
Proof.
  intros Ht Hsd Hy Hm Hd.
  destruct (process_element_lookup e t sd _ Ht Hsd
              (resolve_start_date_lookup sd y m d Hy Hm Hd))
    as (r & Hr & _ & Hro & Hen).
  rewrite (resolve_name_lookup _ _ _ Ht) in Hro.
  rewrite (resolve_name_lookup _ _ _ Ht) in Hen.
  injection Hro as Hro. injection Hen as Hen.
  exists r. split; [done|]. split.
  - intros k cell [[-> ->]|[-> ->]].
    + rewrite <- Hro. repeat split.
      * intros v ->. by destruct v.
      * by intros ->.
      * by intros ->.
    + rewrite <- Hen. repeat split.
      * intros v ->. by destruct v.
      * by intros ->.
      * by intros ->.
  - intros k. apply process_element_title_irrelevant.
    + destruct (decide (k = "romaji")) as [->|].
      * by rewrite lookup_insert_eq, lookup_delete_eq.
      * by rewrite lookup_insert_ne, lookup_delete_ne.
    + destruct (decide (k = "english")) as [->|].
      * by rewrite lookup_insert_eq, lookup_delete_eq.
      * by rewrite lookup_insert_ne, lookup_delete_ne.
Qed.

(** [title.romaji = null, title.english = "Foo"] gives the row
    [["", "Foo", ...]], and a title without [english] key gives the same row
    as one with [english = null]. *)
Lemma title_cells_witness :
  (∃ r, process_element foo_null = Ok r ∧
        romaji_name r = SStr "" ∧ english_name r = SStr "Foo") ∧
  process_element
    (sample_entry {[ "romaji" := SStr "Foo"; "english" := SNone ]}
       (sample_date (SInt 2024) (SInt 7) (SInt 3))) =
  process_element no_english.
Proof.
  split.
  - destruct (title_cells foo_null
                {[ "romaji" := SNone; "english" := SStr "Foo" ]}
                (sample_date (SInt 2024) (SInt 7) (SInt 3))
                (SInt 2024) (SInt 7) (SInt 3)
                eq_refl eq_refl eq_refl eq_refl eq_refl) as (r & Hr & Hcells & _).
    exists r. split; [exact Hr|]. split.
    + exact (proj2 (proj2 (Hcells "romaji" _ (or_introl (conj eq_refl eq_refl))))
               eq_refl).
    + exact (proj1 (Hcells "english" _ (or_intror (conj eq_refl eq_refl)))
               (SStr "Foo") eq_refl ltac:(discriminate)).
  - vm_compute. reflexivity.
Defined.

(** C5, as stated, fails: [process_graphql] sorts before it returns, so the
    row of the first entry need not be at position 0 of its output. *)
Lemma C5_counterexample :
  ¬ (∀ (r : graphql_response) (media : list media_entry) (out : list row),
        media_object_of r = Ok media →
        process_graphql r = Ok out →
        ∀ i e, media !! i = Some e →
               ∃ row, process_element e = Ok row ∧ out !! i = Some row).
Proof.
  intros H.
  destruct (H (sample_response [bravo; alpha]) [bravo; alpha] _
              eq_refl eq_refl 0%nat bravo eq_refl) as (row & Hrow & Hout).
  vm_compute in Hrow, Hout. congruence.
Qed.

(** C5 (amended): inside [process_graphql] the list [extracted_elements] is
    built in input order, the row of the i-th media entry at position i;
    what [process_graphql] returns is that list sorted by English title, so
    the sort is part of [process_graphql] and not of a later step. *)
Theorem extracted_in_input_order_then_sorted
    (r : graphql_response) (media : list media_entry) :
  media_object_of r = Ok media →
  Forall (λ e, schema_entry e = true) media →
  ∃ extracted_elements out,
    extract_elements media = Ok extracted_elements ∧
    length extracted_elements = length media ∧
    (∀ i e, media !! i = Some e →
            ∃ row, process_element e = Ok row ∧
                   extracted_elements !! i = Some row) ∧
    process_graphql r = Ok out ∧
    sorted english_name extracted_elements = Ok out ∧
    StronglySorted (λ a b, text_le (english_name a) (english_name b)) out.
Proof.
  intros Hm Hs.
  destruct (extract_elements_schema media Hs) as (rows & Hrows & Ht).
  destruct (sorted_text english_name rows Ht) as (out & Hout).
  exists rows, out.
  pose proof (proj1 (extract_elements_Forall2 _ _) Hrows) as HF.
  repeat split; try done.
  - symmetry. by eapply Forall2_length.
  - intros i e Hi.
    destruct (Forall2_lookup_l _ _ _ _ _ HF Hi) as (row & Hrow & Hp). eauto.
  - unfold process_graphql. rewrite Hm. simpl. by rewrite Hrows.
  - by eapply sorted_StronglySorted.
Qed.

Lemma extracted_in_input_order_then_sorted_witness :
  ∃ extracted_elements out,
    extract_elements [bravo; alpha] = Ok extracted_elements ∧
    length extracted_elements = 2%nat ∧
    (∀ i e, [bravo; alpha] !! i = Some e →
            ∃ row, process_element e = Ok row ∧
                   extracted_elements !! i = Some row) ∧
    process_graphql (sample_response [bravo; alpha]) = Ok out ∧
    sorted english_name extracted_elements = Ok out ∧
    StronglySorted (λ a b, text_le (english_name a) (english_name b)) out.
Proof.
  apply (extracted_in_input_order_then_sorted
           (sample_response [bravo; alpha]) [bravo; alpha]).
  - reflexivity.
  - repeat constructor.
Defined.

(** ** Sorting and the rows that reach the presentation step *)

Lemma StronglySorted_lookup {A} (R : relation A) (l : list A) i j a b :
  StronglySorted R l → l !! i = Some a → l !! j = Some b → (i < j)%nat → R a b.
Proof.
  intros Hs. revert i j. induction Hs as [|x l Hs IH Hx]; intros i j; [done|].
  destruct i as [|i], j as [|j]; simpl; try lia.
  - intros [= <-] Hb _. rewrite Forall_forall in Hx. apply Hx.
    by eapply list_elem_of_lookup_2.
  - intros Ha Hb Hij. apply (IH i j); [done|done|lia].
Qed.

(** ** Runs of the stateful functions *)

Lemma string_app_assoc (s t u : string) : (s +:+ t) +:+ u = s +:+ t +:+ u.
Proof.
  induction s as [|a s IH]; [done|].
  change (String a ((s +:+ t) +:+ u) = String a (s +:+ t +:+ u)).
  by rewrite IH.
Qed.

Lemma string_app_empty_r (s : string) : s +:+ "" = s.
Proof.
  induction s as [|a s IH]; [done|].
  change (String a (s +:+ "") = String a s). by rewrite IH.
Qed.

Lemma string_to_copy_concat (data_set : list row) :
  string_to_copy data_set = String.concat "" (map loop_string data_set).
Proof.
  unfold string_to_copy.
  assert (∀ acc, fold_left (λ acc entry, acc +:+ loop_string entry) data_set acc
                 = acc +:+ String.concat "" (map loop_string data_set)) as H.
  { induction data_set as [|r l IH]; intros acc; simpl.
    - by rewrite string_app_empty_r.
    - rewrite IH. destruct l; simpl.
      + by rewrite string_app_empty_r.
      + by rewrite string_app_assoc. }
  apply H.
Qed.

Lemma query_graphql_run post query variables url w :
  query_graphql post query variables url w =
  let rq := Request url json_headers query variables in
  (answer (post (sent w) rq),
   World (VARIABLES w) (stdout w) (clipboard w) (sent w ++ [rq])
         (calls w ++ ["query_graphql"])).
Proof.
  unfold query_graphql, enter, bindM, requests_post, answer, lift, ret; simpl.
  fold json_headers.
  destruct (post _ _) as [response|e]; [|done].
  destruct (status_code response =? 200)%Z; [|done].
  by destruct (json response).
Qed.

Lemma extract_graphql_data_run post a b c d w :
  extract_graphql_data post a b c d w =
  let vars := overridden a b c d (VARIABLES w) in
  let rq := Request GRAPH_QL_URL json_headers QUERY_STRING vars in
  let w2 := World vars (stdout w) (clipboard w) (sent w ++ [rq])
              ((calls w ++ ["extract_graphql_data"]) ++ ["query_graphql"]) in
  match answer (post (sent w) rq) with
  | Raise e => (Raise e, w2)
  | Ok None =>
      (Raise (SystemExit None),
       World vars (stdout w +:+ no_data_message +:+ nl) (clipboard w)
             (sent w2) (calls w2))
  | Ok (Some r) =>
      let w3 := World vars (stdout w) (clipboard w) (sent w2)
                  (calls w2 ++ ["process_graphql"]) in
      match process_graphql r with
      | Ok processed_data => tabulate_anichart_data processed_data w3
      | Raise e => (Raise e, w3)
      end
  end.
Proof.
  unfold extract_graphql_data, enter at 1, bindM at 1 2 3 4 5 6.
  unfold overridden, override.
  destruct (truthy a), (truthy b), (truthy c), (truthy d); simpl;
    rewrite query_graphql_run; simpl;
    (destruct (answer _) as [[r|]|e]; [| |done]);
    try done;
    unfold bindM, enter, lift; simpl;
    by destruct (process_graphql r).
Qed.

Lemma tabulate_anichart_data_run data_set w :
  tabulate_anichart_data data_set w =
  (Ok tt,
   World (VARIABLES w)
     (((((stdout w +:+ (nl +:+ "--------------------" +:+ nl) +:+ nl)
          +:+ string_to_copy data_set +:+ nl)
          +:+ (nl +:+ nl +:+ "--------------------" +:+ nl +:+ nl) +:+ nl)
          +:+ ("Elements: " +:+ pretty (length data_set)) +:+ nl))
     (string_to_copy data_set) (sent w)
     (calls w ++ ["tabulate_anichart_data"])).
Proof. reflexivity. Qed.

Lemma extract_graphql_data_VARIABLES post a b c d w :
  VARIABLES (snd (extract_graphql_data post a b c d w)) =
  overridden a b c d (VARIABLES w).
Proof.
  rewrite extract_graphql_data_run. cbv zeta.
  destruct (answer _) as [[r|]|e]; [|done..].
  destruct (process_graphql r); [|done].
  by rewrite tabulate_anichart_data_run.
Qed.

Lemma extract_graphql_data_sent post a b c d w :
  sent (snd (extract_graphql_data post a b c d w)) =
  (sent w ++ [Request GRAPH_QL_URL json_headers QUERY_STRING
                (overridden a b c d (VARIABLES w))])%list.
Proof.
  rewrite extract_graphql_data_run. cbv zeta.
  destruct (answer _) as [[r|]|e]; [|done..].
  destruct (process_graphql r); [|done].
  by rewrite tabulate_anichart_data_run.
Qed.

Lemma overridden_falsy a b c d vars :
  truthy a = false → truthy b = false → truthy c = false → truthy d = false →
  overridden a b c d vars = vars.
Proof. unfold overridden, override. by intros -> -> -> ->. Qed.

Lemma overridden_lookup a b c d (vars : gmap string value) k v :
  (k, v) ∈ [("status", a); ("format", b); ("year", c); ("season", d)] →
  (truthy v = true → overridden a b c d vars !! k = Some v) ∧
  (truthy v = false → overridden a b c d vars !! k = vars !! k).
Proof.
  unfold overridden, override. intros Hin.
  repeat (apply elem_of_cons in Hin as [[= -> ->]|Hin]);
    [| | | |by apply elem_of_nil in Hin];
    (split; intros ->);
    destruct (truthy a), (truthy b), (truthy c), (truthy d);
    by simplify_map_eq.
Qed.

(** ** Claims on the transport and on the entry point *)

(** C6: [query_graphql] returns what [response.json()] gives when the
    status code is 200 and [None] for every other status code; a value
    other than [None] therefore comes from a 200 response only. *)
Theorem query_graphql_status
    post (query : string) (variables : gmap string value) (url : string)
    (w : world) (response : http_response) :
  post (sent w) (Request url json_headers query variables) = Ok response →
  let returned := fst (query_graphql post query variables url w) in
  (status_code response = 200 → returned = json response) ∧
  (status_code response ≠ 200 → returned = Ok None) ∧
  (∀ data, returned = Ok (Some data) → status_code response = 200).
Proof.
  intros Hpost. cbv zeta. rewrite query_graphql_run. cbv zeta. simpl.
  rewrite Hpost. simpl.
  destruct (Z.eqb_spec (status_code response) 200) as [Heq|Hne].
  - repeat split; done.
  - repeat split; done.
Qed.

Lemma query_graphql_status_witness :
  fst (query_graphql post_404 QUERY_STRING VARIABLES_default GRAPH_QL_URL
         initial_world) = Ok None ∧
  fst (query_graphql (post_200 (sample_response [bravo; alpha])) QUERY_STRING
         VARIABLES_default GRAPH_QL_URL initial_world) =
    Ok (Some (sample_response [bravo; alpha])).
Proof.
  split.
  - refine (proj1 (proj2 (query_graphql_status post_404 QUERY_STRING
              VARIABLES_default GRAPH_QL_URL initial_world
              (Response 404 (Ok None)) eq_refl)) _).
    simpl. discriminate.
  - exact (proj1 (query_graphql_status (post_200 (sample_response [bravo; alpha]))
              QUERY_STRING VARIABLES_default GRAPH_QL_URL initial_world
              (Response 200 (Ok (Some (sample_response [bravo; alpha]))))
              eq_refl) eq_refl).
Defined.

(** C7, as stated, fails on the exit status: [exit()] is called without a
    code, so the [SystemExit] it raises ends the process with status 0. *)
Lemma C7_counterexample :
  ¬ (∀ post a b c d (w : world) (response : http_response),
        post (sent w)
             (Request GRAPH_QL_URL json_headers QUERY_STRING
                (overridden a b c d (VARIABLES w))) = Ok response →
        status_code response ≠ 200 →
        ∃ e, fst (extract_graphql_data post a b c d w) = Raise e ∧
             exit_status e ≠ 0).
Proof.
  intros H.
  destruct (H post_404 VNone VNone VNone VNone initial_world
              (Response 404 (Ok None)) eq_refl ltac:(discriminate))
    as (e & He & Hst).
  rewrite extract_graphql_data_run in He. simpl in He.
  injection He as <-. by apply Hst.
Qed.

(** C7 (amended): whenever [query_graphql] yields [None] (any non-200
    response, or a 200 response whose body is [null]),
    [extract_graphql_data] prints the diagnostic message and ends at once by
    raising [SystemExit] without a code, which is exit status 0; neither
    [process_graphql] nor [tabulate_anichart_data] is entered, nothing else
    is printed and the clipboard is left as it was. *)
Theorem no_data_exits
    post (status_var format_var year_var season_var : value)
    (w : world) (response : http_response) :
  post (sent w)
       (Request GRAPH_QL_URL json_headers QUERY_STRING
          (overridden status_var format_var year_var season_var (VARIABLES w)))
    = Ok response →
  status_code response ≠ 200 ∨ json response = Ok None →
  let run := extract_graphql_data post status_var format_var year_var season_var w in
  fst run = Raise (SystemExit None) ∧
  exit_status (SystemExit None) = 0 ∧
  stdout (snd run) = stdout w +:+ "No data returned from query graphql!" +:+ nl ∧
  clipboard (snd run) = clipboard w ∧
  calls (snd run) = (calls w ++ ["extract_graphql_data"; "query_graphql"])%list.
Proof.
  intros Hpost Hnone. cbv zeta. rewrite extract_graphql_data_run. cbv zeta.
  rewrite Hpost.
  assert (answer (Ok response) = Ok None) as ->.
  { unfold answer. destruct (Z.eqb_spec (status_code response) 200); [|done].
    by destruct Hnone. }
  simpl. by rewrite <- app_assoc.
Qed.

Lemma no_data_exits_witness :
  let run := main post_404 initial_world in
  fst run = Raise (SystemExit None) ∧
  exit_status (SystemExit None) = 0 ∧
  stdout (snd run) = "No data returned from query graphql!" +:+ nl ∧
  clipboard (snd run) = "" ∧
  calls (snd run) = ["extract_graphql_data"; "query_graphql"].
Proof.
  apply (no_data_exits post_404 VNone (VList ["TV"]) (VInt 2024) (VStr "SUMMER")
           initial_world (Response 404 (Ok None))).
  - reflexivity.
  - left. discriminate.
Defined.

(** C8: after a call of [extract_graphql_data], whatever its outcome, each
    of the four entries of [VARIABLES] holds the argument when the argument
    is truthy and its former value when it is not; all other entries keep
    their former value. *)
Theorem overrides_replace_exactly_truthy
    post (status_var format_var year_var season_var : value) (w : world) :
  let after :=
    VARIABLES (snd (extract_graphql_data post status_var format_var
                      year_var season_var w)) in
  (∀ k v,
      (k, v) ∈ [("status", status_var); ("format", format_var);
                ("year", year_var); ("season", season_var)] →
      (truthy v = true → after !! k = Some v) ∧
      (truthy v = false → after !! k = VARIABLES w !! k)) ∧
  (∀ k, k ∉ ["status"; "format"; "year"; "season"] →
        after !! k = VARIABLES w !! k).
Proof.
  cbv zeta. rewrite extract_graphql_data_VARIABLES.
  split.
  - intros k v. apply overridden_lookup.
  - unfold overridden, override. intros k Hk.
    rewrite !not_elem_of_cons in Hk. destruct Hk as (? & ? & ? & ? & _).
    destruct (truthy status_var), (truthy format_var),
      (truthy year_var), (truthy season_var);
      by simplify_map_eq.
Qed.

(** The call of the [__main__] block: [status_var=None] leaves the default
    status list, [format_var=["TV"]] replaces the format list. *)
Lemma overrides_replace_exactly_truthy_witness :
  let after := VARIABLES (snd (main post_404 initial_world)) in
  after !! "status" = VARIABLES_default !! "status" ∧
  after !! "format" = Some (VList ["TV"]).
Proof.
  pose proof (overrides_replace_exactly_truthy post_404
                VNone (VList ["TV"]) (VInt 2024) (VStr "SUMMER") initial_world)
    as [H _].
  split.
  - apply (H "status" VNone); [|reflexivity]. apply elem_of_cons; by left.
  - apply (H "format" (VList ["TV"])); [|reflexivity].
    apply elem_of_cons; right. apply elem_of_cons; by left.
Defined.

Lemma state_after_falsy post args w :
  all_falsy args = true →
  VARIABLES (state_after post args w) = VARIABLES w ∧
  sent (state_after post args w) =
    (sent w ++ [Request GRAPH_QL_URL json_headers QUERY_STRING (VARIABLES w)])%list.
Proof.
  destruct args as [[[a b] c] d]. unfold all_falsy, state_after.
  rewrite !andb_true_iff, !negb_true_iff. intros [[[Ha Hb] Hc] Hd].
  rewrite extract_graphql_data_VARIABLES, extract_graphql_data_sent.
  by rewrite (overridden_falsy _ _ _ _ _ Ha Hb Hc Hd).
Qed.

Lemma state_after_calls_falsy post later w :
  Forall (λ args, all_falsy args = true) later →
  VARIABLES (state_after_calls post later w) = VARIABLES w ∧
  sent (state_after_calls post later w) =
    (sent w ++ replicate (length later)
       (Request GRAPH_QL_URL json_headers QUERY_STRING (VARIABLES w)))%list.
Proof.
  intros Hl. revert w. induction Hl as [|args later Hargs _ IH]; intros w; simpl.
  - by rewrite app_nil_r.
  - destruct (state_after_falsy post args w Hargs) as [HV Hs].
    destruct (IH (state_after post args w)) as [HV' Hs'].
    rewrite HV', Hs', HV, Hs. split; [done|]. by rewrite <- app_assoc.
Qed.

Lemma overridden_lookup_other a b c d (vars : gmap string value) k :
  k ∉ ["status"; "format"; "year"; "season"] →
  overridden a b c d vars !! k = vars !! k.
Proof.
  rewrite !not_elem_of_cons. intros (? & ? & ? & ? & _).
  unfold overridden, override.
  destruct (truthy a), (truthy b), (truthy c), (truthy d);
    by rewrite ?lookup_insert_ne.
Qed.

Lemma overridden_lookup_arg a b c d (vars : gmap string value) k :
  overridden a b c d vars !! k =
    if truthy (arg_for k (a, b, c, d)) then Some (arg_for k (a, b, c, d))
    else vars !! k.
Proof.
  assert (∀ v, (k, v) ∈ [("status", a); ("format", b); ("year", c); ("season", d)] →
               overridden a b c d vars !! k =
                 if truthy v then Some v else vars !! k) as Hfour.
  { intros v Hin.
    destruct (overridden_lookup a b c d vars k v Hin) as [Ht Hf].
    destruct (truthy v); auto. }
  unfold arg_for. repeat case_decide; subst.
  - apply Hfour. rewrite !elem_of_cons. tauto.
  - apply Hfour. rewrite !elem_of_cons. tauto.
  - apply Hfour. rewrite !elem_of_cons. tauto.
  - apply Hfour. rewrite !elem_of_cons. tauto.
  - simpl. apply overridden_lookup_other.
    rewrite !not_elem_of_cons. repeat split; try done. apply not_elem_of_nil.
Qed.

Lemma state_after_lookup post args w k :
  VARIABLES (state_after post args w) !! k =
    if truthy (arg_for k args) then Some (arg_for k args)
    else VARIABLES w !! k.
Proof.
  destruct args as [[[a b] c] d]. unfold state_after.
  rewrite extract_graphql_data_VARIABLES. apply overridden_lookup_arg.
Qed.

Lemma state_after_sent post args w :
  sent (state_after post args w) =
    (sent w ++ [Request GRAPH_QL_URL json_headers QUERY_STRING
                  (VARIABLES (state_after post args w))])%list.
Proof.
  destruct args as [[[a b] c] d]. unfold state_after.
  by rewrite extract_graphql_data_sent, extract_graphql_data_VARIABLES.
Qed.

Lemma state_after_calls_key post later w k :
  Forall (λ args, truthy (arg_for k args) = false) later →
  VARIABLES (state_after_calls post later w) !! k = VARIABLES w !! k ∧
  ∃ requests,
    sent (state_after_calls post later w) = (sent w ++ requests)%list ∧
    length requests = length later ∧
    Forall (λ rq, req_variables rq !! k = VARIABLES w !! k) requests.
Proof.
  intros Hl. revert w. induction Hl as [|args later Hargs _ IH]; intros w; simpl.
  - split; [done|]. exists []. by rewrite app_nil_r.
  - assert (VARIABLES (state_after post args w) !! k = VARIABLES w !! k) as Hk.
    { by rewrite state_after_lookup, Hargs. }
    destruct (IH (state_after post args w)) as (HV & requests & Hs & Hlen & Hrq).
    split; [by rewrite HV|].
    exists (Request GRAPH_QL_URL json_headers QUERY_STRING
              (VARIABLES (state_after post args w)) :: requests).
    split; [|split].
    + rewrite Hs, state_after_sent. by rewrite <- app_assoc.
    + simpl. by rewrite Hlen.
    + constructor; [done|]. eapply Forall_impl; [exact Hrq|].
      intros rq Heq. by rewrite Heq.
Qed.

(** C10: [VARIABLES] is process-wide state.  Whatever a call of
    [extract_graphql_data] leaves under a key stays there through every
    later call of the same process that passes [None] (or a falsy value) for
    that key, whatever those calls pass for the other keys: the entry is
    not reset to the module-level default, each of the later calls sends
    its request with it, and when the earlier call overrode the key it is
    that override.  When all arguments of the later calls are falsy the
    whole mapping stays as the earlier call left it. *)
Theorem overrides_persist_across_calls
    post (first : call_args) (later : list call_args) (w : world)
    (k : string) :
  Forall (λ args, truthy (arg_for k args) = false) later →
  let w1 := state_after post first w in
  let wn := state_after_calls post later w1 in
  VARIABLES wn !! k = VARIABLES w1 !! k ∧
  (truthy (arg_for k first) = true →
   VARIABLES wn !! k = Some (arg_for k first)) ∧
  (∃ requests,
      sent wn = (sent w1 ++ requests)%list ∧
      length requests = length later ∧
      Forall (λ rq, req_variables rq !! k = VARIABLES w1 !! k) requests) ∧
  (Forall (λ args, all_falsy args = true) later →
   VARIABLES wn = VARIABLES w1 ∧
   sent wn =
     (sent w1 ++ replicate (length later)
        (Request GRAPH_QL_URL json_headers QUERY_STRING (VARIABLES w1)))%list).
Proof.
  intros Hl. cbv zeta.
  destruct (state_after_calls_key post later (state_after post first w) k Hl)
    as (HV & Hrq).
  split; [done|]. split; [|split; [done|]].
  - intros Hfirst. by rewrite HV, state_after_lookup, Hfirst.
  - apply state_after_calls_falsy.
Qed.

(** From the module defaults, a first call overrides the year with 2023.
    A second call like the one of the [__main__] block but without a year,
    and a third one with [year_var=0], set other keys and still query for
    2023, not for the default 2024. *)
Lemma overrides_persist_across_calls_witness :
  let post := post_200 (sample_response [bravo; alpha]) in
  let w1 := state_after post (VNone, VNone, VInt 2023, VNone) initial_world in
  let wn := state_after_calls post
              [(VNone, VList ["TV"], VNone, VStr "FALL");
               (VList ["FINISHED"], VNone, VInt 0, VNone)] w1 in
  VARIABLES wn !! "year" = Some (VInt 2023) ∧
  VARIABLES wn !! "season" = Some (VStr "FALL") ∧
  VARIABLES_default !! "year" = Some (VInt 2024).
Proof.
  split; [|split; reflexivity].
  apply (overrides_persist_across_calls
           (post_200 (sample_response [bravo; alpha]))
           (VNone, VNone, VInt 2023, VNone)
           [(VNone, VList ["TV"], VNone, VStr "FALL");
            (VList ["FINISHED"], VNone, VInt 0, VNone)]
           initial_world "year").
  - repeat constructor.
  - reflexivity.
Defined.

(** ** Claims on sorting and presentation *)

(** C9: the text built by [tabulate_anichart_data] is the concatenation, in
    list order, of one line [romaji \t english \t date \n] per row; that
    same text is printed between the two separator lines and put on the
    clipboard, and the count printed last is the number of rows. *)
Theorem tabulate_prints_and_copies_table (data_set : list row) (w : world) :
  let line (entry : row) :=
    str (romaji_name entry) +:+ " " +:+ tab +:+ " " +:+
    str (english_name entry) +:+ " " +:+ tab +:+ " " +:+
    start_date_str entry +:+ " " +:+ nl in
  let text := String.concat "" (map line data_set) in
  let run := tabulate_anichart_data data_set w in
  fst run = Ok tt ∧
  stdout (snd run) =
    stdout w +:+
    nl +:+ "--------------------" +:+ nl +:+ nl +:+
    text +:+ nl +:+
    nl +:+ nl +:+ "--------------------" +:+ nl +:+ nl +:+ nl +:+
    "Elements: " +:+ pretty (length data_set) +:+ nl ∧
  clipboard (snd run) = text ∧
  VARIABLES (snd run) = VARIABLES w ∧
  sent (snd run) = sent w.
Proof.
  cbv zeta. rewrite tabulate_anichart_data_run. simpl.
  rewrite string_to_copy_concat. repeat split.
  by rewrite !string_app_assoc.
Qed.

Lemma tabulate_prints_and_copies_table_witness :
  let run :=
    tabulate_anichart_data
      [Row (SStr "Arufa") (SStr "Alpha") "1.1.1999";
       Row (SStr "Buraboo") (SStr "Bravo") "3.7.2024"] initial_world in
  clipboard (snd run) =
    "Arufa " +:+ tab +:+ " Alpha " +:+ tab +:+ " 1.1.1999 " +:+ nl +:+
    "Buraboo " +:+ tab +:+ " Bravo " +:+ tab +:+ " 3.7.2024 " +:+ nl.
Proof.
  exact (proj1 (proj2 (proj2 (tabulate_prints_and_copies_table
           [Row (SStr "Arufa") (SStr "Alpha") "1.1.1999";
            Row (SStr "Buraboo") (SStr "Bravo") "3.7.2024"] initial_world)))).
Defined.

(** Byte order is case-sensitive: every upper-case letter sorts before every
    lower-case one. *)
Example upper_before_lower :
  String.ltb "Zulu" "alpha" = true ∧ String.ltb "alpha" "Zulu" = false.
Proof. split; reflexivity. Qed.

(** C4: the rows that [extract_graphql_data] hands to
    [tabulate_anichart_data] are the extracted rows rearranged: a
    permutation of them, in non-decreasing order of English title, rows
    with the same English title in their input order, and every row with an
    empty English title before every row with a non-empty one.  For the
    two entries "Bravo" then "Alpha" behind a 200 response the table has the
    Alpha row first. *)
Theorem rows_sorted_by_english_title
    (r : graphql_response) (media : list media_entry) (rows : list row) :
  media_object_of r = Ok media →
  extract_elements media = Ok rows →
  Forall (λ x, is_text (english_name x) = true) rows →
  ∃ out,
    process_graphql r = Ok out ∧
    (∀ post a b c d w response,
        post (sent w)
             (Request GRAPH_QL_URL json_headers QUERY_STRING
                (overridden a b c d (VARIABLES w))) = Ok response →
        status_code response = 200 → json response = Ok (Some r) →
        ∃ w', extract_graphql_data post a b c d w =
              tabulate_anichart_data out w') ∧
    out ≡ₚ rows ∧
    StronglySorted
      (λ x y, String.leb (str (english_name x)) (str (english_name y)) = true)
      out ∧
    (∀ k, filter (λ x, english_name x = k) out =
          filter (λ x, english_name x = k) rows) ∧
    (∀ i j x y c s,
        out !! i = Some x → out !! j = Some y →
        english_name x = SStr "" → english_name y = SStr (String c s) →
        (i < j)%nat) ∧
    (let run := main (post_200 (sample_response [bravo; alpha])) initial_world in
     process_graphql (sample_response [bravo; alpha]) =
       Ok [Row (SStr "Arufa") (SStr "Alpha") "1.1.1999";
           Row (SStr "Buraboo") (SStr "Bravo") "3.7.2024"] ∧
     fst run = Ok tt ∧
     clipboard (snd run) =
       "Arufa " +:+ tab +:+ " Alpha " +:+ tab +:+ " 1.1.1999 " +:+ nl +:+
       "Buraboo " +:+ tab +:+ " Bravo " +:+ tab +:+ " 3.7.2024 " +:+ nl).
Proof.
  intros Hm Hrows Ht.
  destruct (sorted_text english_name rows Ht) as (out & Hout).
  assert (process_graphql r = Ok out) as Hp.
  { unfold process_graphql. rewrite Hm. simpl. by rewrite Hrows. }
  pose proof (sorted_StronglySorted english_name rows out Ht Hout) as Hs.
  exists out. split; [done|]. split; [|split; [|split; [|split; [|split]]]].
  - intros post a b c d w response Hpost H200 Hjson.
    rewrite extract_graphql_data_run. cbv zeta. rewrite Hpost.
    unfold answer. rewrite H200, Hjson. simpl. rewrite Hp. eauto.
  - by eapply sorted_Permutation.
  - exact Hs.
  - intros k. by apply sorted_filter.
  - intros i j x y c s Hi Hj Hx Hy.
    destruct (lt_eq_lt_dec i j) as [[Hlt| ->]|Hgt]; [done| |].
    + rewrite Hi in Hj. injection Hj as <-. congruence.
    + pose proof (StronglySorted_lookup _ _ _ _ _ _ Hs Hj Hi Hgt) as Hle.
      unfold text_le in Hle. by rewrite Hx, Hy in Hle.
  - vm_compute. done.
Qed.

Lemma rows_sorted_by_english_title_witness :
  ∃ out,
    process_graphql (sample_response [bravo; foo_null; alpha]) = Ok out ∧
    out ≡ₚ [Row (SStr "Buraboo") (SStr "Bravo") "3.7.2024";
            Row (SStr "") (SStr "Foo") "3.7.2024";
            Row (SStr "Arufa") (SStr "Alpha") "1.1.1999"].
Proof.
  destruct (rows_sorted_by_english_title
              (sample_response [bravo; foo_null; alpha])
              [bravo; foo_null; alpha]
              [Row (SStr "Buraboo") (SStr "Bravo") "3.7.2024";
               Row (SStr "") (SStr "Foo") "3.7.2024";
               Row (SStr "Arufa") (SStr "Alpha") "1.1.1999"]
              eq_refl eq_refl ltac:(repeat constructor))
    as (out & Hout & _ & Hperm & _).
  exists out. split; [exact Hout|exact Hperm].
Defined.

(** * Further properties of the script *)

(** ** [query_graphql] *)

(** X1: a call of [query_graphql] sends exactly one request, made of the
    given url, query and variables and the JSON content-type header,
    whatever the transport answers (no retry on failure or on a non-200
    status), and touches neither [VARIABLES], standard output nor the
    clipboard. *)
Theorem query_graphql_sends_one_request
    post (query : string) (variables : gmap string value) (url : string)
    (w : world) :
  let run := query_graphql post query variables url w in
  sent (snd run) = (sent w ++ [Request url json_headers query variables])%list ∧
  VARIABLES (snd run) = VARIABLES w ∧
  stdout (snd run) = stdout w ∧
  clipboard (snd run) = clipboard w.
Proof. cbv zeta. by rewrite query_graphql_run. Qed.

(** X2: an exception of the transport, and an exception of
    [response.json()] on a 200 response, come out of [query_graphql] as they
    are: they are not turned into [None]. *)
Theorem query_graphql_propagates_exceptions
    post (query : string) (variables : gmap string value) (url : string)
    (w : world) (e : exn) :
  post (sent w) (Request url json_headers query variables) = Raise e ∨
  (∃ response,
      post (sent w) (Request url json_headers query variables) = Ok response ∧
      status_code response = 200 ∧ json response = Raise e) →
  fst (query_graphql post query variables url w) = Raise e.
Proof.
  rewrite query_graphql_run. cbv zeta. simpl.
  intros [->|(response & -> & H200 & Hjson)]; [done|].
  unfold answer. by rewrite H200, Hjson.
Qed.

Lemma query_graphql_propagates_exceptions_witness :
  fst (query_graphql (post_raises (Other "ConnectionError")) QUERY_STRING
         VARIABLES_default GRAPH_QL_URL initial_world)
    = Raise (Other "ConnectionError") ∧
  fst (query_graphql
         (post_answers (Response 200 (Raise (Other "JSONDecodeError"))))
         QUERY_STRING VARIABLES_default GRAPH_QL_URL initial_world)
    = Raise (Other "JSONDecodeError").
Proof.
  split.
  - apply query_graphql_propagates_exceptions. left. reflexivity.
  - apply query_graphql_propagates_exceptions. right.
    exists (Response 200 (Raise (Other "JSONDecodeError"))).
    repeat split.
Defined.

(** ** [extract_graphql_data] *)

(** X3: every call of [extract_graphql_data], whatever its outcome, sends
    exactly one request: to the fixed endpoint, with the fixed query and the
    JSON header, and with [VARIABLES] as the call leaves it, that is with
    the overrides of this very call applied. *)
Theorem extract_graphql_data_sends_one_request
    post (status_var format_var year_var season_var : value) (w : world) :
  let w' := snd (extract_graphql_data post status_var format_var
                   year_var season_var w) in
  sent w' =
    (sent w ++ [Request GRAPH_QL_URL json_headers QUERY_STRING (VARIABLES w')])%list.
Proof.
  cbv zeta.
  by rewrite extract_graphql_data_sent, extract_graphql_data_VARIABLES.
Qed.

(** X4: on a 200 response whose entries have the shape the query asks for,
    [extract_graphql_data] returns normally after entering all four
    functions in order; the clipboard holds the table of the rows
    [process_graphql] returns, and the count printed last is the number of
    media entries of the response. *)
Theorem extract_graphql_data_success
    post (status_var format_var year_var season_var : value) (w : world)
    (response : http_response) (r : graphql_response)
    (media : list media_entry) :
  post (sent w)
       (Request GRAPH_QL_URL json_headers QUERY_STRING
          (overridden status_var format_var year_var season_var (VARIABLES w)))
    = Ok response →
  status_code response = 200 →
  json response = Ok (Some r) →
  media_object_of r = Ok media →
  Forall (λ e, schema_entry e = true) media →
  ∃ out,
    process_graphql r = Ok out ∧
    let run := extract_graphql_data post status_var format_var
                 year_var season_var w in
    fst run = Ok tt ∧
    clipboard (snd run) = string_to_copy out ∧
    stdout (snd run) =
      stdout w +:+
      nl +:+ "--------------------" +:+ nl +:+ nl +:+
      string_to_copy out +:+ nl +:+
      nl +:+ nl +:+ "--------------------" +:+ nl +:+ nl +:+ nl +:+
      "Elements: " +:+ pretty (length media) +:+ nl ∧
    calls (snd run) =
      (calls w ++ ["extract_graphql_data"; "query_graphql"; "process_graphql";
                   "tabulate_anichart_data"])%list.
Proof.
  intros Hpost H200 Hjson Hm Hs.
  destruct (extract_elements_schema media Hs) as (rows & Hrows & Ht).
  destruct (sorted_text english_name rows Ht) as (out & Hout).
  assert (process_graphql r = Ok out) as Hp.
  { unfold process_graphql. rewrite Hm. simpl. by rewrite Hrows. }
  assert (length out = length media) as Hlen.
  { rewrite (sorted_length _ _ _ Hout). symmetry.
    eapply Forall2_length. by apply extract_elements_Forall2. }
  exists out. split; [done|]. cbv zeta.
  rewrite extract_graphql_data_run. cbv zeta. rewrite Hpost.
  unfold answer. rewrite H200, Hjson. simpl. rewrite Hp.
  rewrite tabulate_anichart_data_run. simpl. rewrite Hlen.
  repeat split.
  - by rewrite !string_app_assoc.
  - by rewrite <- !app_assoc.
Qed.

Lemma extract_graphql_data_success_witness :
  ∃ out,
    process_graphql (sample_response [bravo; foo_null; alpha]) = Ok out ∧
    let run := main (post_200 (sample_response [bravo; foo_null; alpha]))
                 initial_world in
    fst run = Ok tt ∧
    clipboard (snd run) = string_to_copy out ∧
    stdout (snd run) =
      stdout initial_world +:+
      nl +:+ "--------------------" +:+ nl +:+ nl +:+
      string_to_copy out +:+ nl +:+
      nl +:+ nl +:+ "--------------------" +:+ nl +:+ nl +:+ nl +:+
      "Elements: " +:+ pretty (length [bravo; foo_null; alpha]) +:+ nl ∧
    calls (snd run) =
      (calls initial_world ++
         ["extract_graphql_data"; "query_graphql"; "process_graphql";
          "tabulate_anichart_data"])%list.
Proof.
  apply (extract_graphql_data_success
           (post_200 (sample_response [bravo; foo_null; alpha]))
           VNone (VList ["TV"]) (VInt 2024) (VStr "SUMMER") initial_world
           (Response 200 (Ok (Some (sample_response [bravo; foo_null; alpha]))))
           (sample_response [bravo; foo_null; alpha]) [bravo; foo_null; alpha]).
  - reflexivity.
  - reflexivity.
  - reflexivity.
  - reflexivity.
  - repeat constructor.
Defined.

(** X5: when [process_graphql] raises on the body of a 200 response (a
    missing key, titles that cannot be compared), [extract_graphql_data]
    ends with that exception before [tabulate_anichart_data] is entered:
    nothing is printed and the clipboard keeps its content. *)
Theorem extract_graphql_data_processing_error
    post (status_var format_var year_var season_var : value) (w : world)
    (response : http_response) (r : graphql_response) (e : exn) :
  post (sent w)
       (Request GRAPH_QL_URL json_headers QUERY_STRING
          (overridden status_var format_var year_var season_var (VARIABLES w)))
    = Ok response →
  status_code response = 200 →
  json response = Ok (Some r) →
  process_graphql r = Raise e →
  let run := extract_graphql_data post status_var format_var
               year_var season_var w in
  fst run = Raise e ∧
  stdout (snd run) = stdout w ∧
  clipboard (snd run) = clipboard w ∧
  calls (snd run) =
    (calls w ++ ["extract_graphql_data"; "query_graphql"; "process_graphql"])%list.
Proof.
  intros Hpost H200 Hjson Hp. cbv zeta.
  rewrite extract_graphql_data_run. cbv zeta. rewrite Hpost.
  unfold answer. rewrite H200, Hjson. simpl. rewrite Hp. simpl.
  repeat split. by rewrite <- !app_assoc.
Qed.

Lemma extract_graphql_data_processing_error_witness :
  let run := main (post_200 (sample_response [bravo; no_year])) initial_world in
  fst run = Raise (KeyError "year") ∧
  stdout (snd run) = stdout initial_world ∧
  clipboard (snd run) = clipboard initial_world ∧
  calls (snd run) =
    (calls initial_world ++
       ["extract_graphql_data"; "query_graphql"; "process_graphql"])%list.
Proof.
  apply (extract_graphql_data_processing_error
           (post_200 (sample_response [bravo; no_year]))
           VNone (VList ["TV"]) (VInt 2024) (VStr "SUMMER") initial_world
           (Response 200 (Ok (Some (sample_response [bravo; no_year]))))
           (sample_response [bravo; no_year])).
  - reflexivity.
  - reflexivity.
  - reflexivity.
  - reflexivity.
Defined.

(** X6: an exception of the transport or of the JSON decoder is not caught
    by [extract_graphql_data]: the call ends with it, without the no-data
    message or anything else being printed, and without entering
    [process_graphql] or [tabulate_anichart_data]. *)
Theorem extract_graphql_data_transport_error
    post (status_var format_var year_var season_var : value) (w : world)
    (e : exn) :
  post (sent w)
       (Request GRAPH_QL_URL json_headers QUERY_STRING
          (overridden status_var format_var year_var season_var (VARIABLES w)))
    = Raise e ∨
  (∃ response,
      post (sent w)
           (Request GRAPH_QL_URL json_headers QUERY_STRING
              (overridden status_var format_var year_var season_var
                 (VARIABLES w))) = Ok response ∧
      status_code response = 200 ∧ json response = Raise e) →
  let run := extract_graphql_data post status_var format_var
               year_var season_var w in
  fst run = Raise e ∧
  stdout (snd run) = stdout w ∧
  clipboard (snd run) = clipboard w ∧
  calls (snd run) = (calls w ++ ["extract_graphql_data"; "query_graphql"])%list.
Proof.
  intros Hq. cbv zeta. rewrite extract_graphql_data_run. cbv zeta.
  assert (answer (post (sent w)
            (Request GRAPH_QL_URL json_headers QUERY_STRING
               (overridden status_var format_var year_var season_var
                  (VARIABLES w)))) = Raise e) as ->.
  { destruct Hq as [->|(response & -> & H200 & Hjson)]; [done|].
    unfold answer. by rewrite H200, Hjson. }
  repeat split. simpl. by rewrite <- !app_assoc.
Qed.

Lemma extract_graphql_data_transport_error_witness :
  let run := main (post_raises (Other "ConnectionError")) initial_world in
  fst run = Raise (Other "ConnectionError") ∧
  stdout (snd run) = stdout initial_world ∧
  clipboard (snd run) = clipboard initial_world ∧
  calls (snd run) =
    (calls initial_world ++ ["extract_graphql_data"; "query_graphql"])%list.
Proof.
  apply (extract_graphql_data_transport_error
           (post_raises (Other "ConnectionError"))
           VNone (VList ["TV"]) (VInt 2024) (VStr "SUMMER") initial_world).
  left. reflexivity.
Defined.

(** ** The [VARIABLES] mapping across calls *)

Lemma dom_override k v (vars : gmap string value) :
  k ∈ dom vars → dom (override k v vars) = dom vars.
Proof.
  intros Hk. unfold override. destruct (truthy v); [|done].
  apply dom_insert_lookup_L. by apply elem_of_dom.
Qed.

Lemma dom_overridden a b c d (vars : gmap string value) :
  VARIABLES_keys ⊆ dom vars → dom (overridden a b c d vars) = dom vars.
Proof.
  intros Hk.
  assert (∀ k, k ∈ ["status"; "format"; "year"; "season"] → k ∈ dom vars) as Hin.
  { intros k Hin. apply Hk. unfold VARIABLES_keys.
    rewrite !elem_of_union, !elem_of_singleton.
    rewrite !elem_of_cons, elem_of_nil in Hin. tauto. }
  unfold overridden.
  do 4 (rewrite dom_override; rewrite ?dom_override; try done;
        try (apply Hin; rewrite !elem_of_cons; tauto)).
Qed.

(** X7: [extract_graphql_data] only ever assigns to the four keys
    [status], [format], [year] and [season]: once [VARIABLES] has them, as
    the module-level mapping does, any sequence of calls with any
    arguments and any outcomes leaves its set of keys unchanged. *)
Theorem VARIABLES_keys_preserved
    post (later : list call_args) (w : world) :
  VARIABLES_keys ⊆ dom (VARIABLES w) →
  dom (VARIABLES (state_after_calls post later w)) = dom (VARIABLES w).
Proof.
  revert w. induction later as [|[[[a b] c] d] later IH]; intros w Hk; [done|].
  simpl.
  assert (dom (VARIABLES (snd (extract_graphql_data post a b c d w)))
          = dom (VARIABLES w)) as Hd.
  { rewrite extract_graphql_data_VARIABLES. by apply dom_overridden. }
  rewrite IH; [done|]. by rewrite Hd.
Qed.

Lemma VARIABLES_keys_preserved_witness :
  dom (VARIABLES
         (state_after_calls (post_200 (sample_response [bravo; alpha]))
            [(VList ["FINISHED"], VNone, VInt 2019, VStr "WINTER");
             (VNone, VList ["TV"], VNone, VNone)]
            initial_world))
  = dom (VARIABLES initial_world).
Proof.
  apply VARIABLES_keys_preserved. vm_compute. set_solver.
Defined.

(** X8: overrides of successive calls compose key by key: after two calls,
    each of the four entries holds the argument of the second call if that
    is truthy, else the argument of the first call if that is truthy, else
    its value before the two calls. *)
Theorem later_override_wins
    post (a1 b1 c1 d1 a2 b2 c2 d2 : value) (w : world) :
  let w2 := state_after post (a2, b2, c2, d2)
              (state_after post (a1, b1, c1, d1) w) in
  ∀ k v1 v2,
    (k, v1, v2) ∈ [("status", a1, a2); ("format", b1, b2);
                   ("year", c1, c2); ("season", d1, d2)] →
    VARIABLES w2 !! k =
      if truthy v2 then Some v2
      else if truthy v1 then Some v1
      else VARIABLES w !! k.
Proof.
  cbv zeta. unfold state_after. intros k v1 v2 Hin.
  rewrite !extract_graphql_data_VARIABLES.
  assert ((k, v2) ∈ [("status", a2); ("format", b2); ("year", c2); ("season", d2)]
          ∧ (k, v1) ∈ [("status", a1); ("format", b1); ("year", c1); ("season", d1)])
    as [H2 H1].
  { repeat (apply elem_of_cons in Hin as [[= -> -> ->]|Hin]);
      [| | | |by apply elem_of_nil in Hin];
      split; rewrite !elem_of_cons; tauto. }
  destruct (overridden_lookup a2 b2 c2 d2
              (overridden a1 b1 c1 d1 (VARIABLES w)) k v2 H2) as [Ht2 Hf2].
  destruct (overridden_lookup a1 b1 c1 d1 (VARIABLES w) k v1 H1) as [Ht1 Hf1].
  destruct (truthy v2); [by apply Ht2|]. rewrite Hf2 by done.
  destruct (truthy v1); [by apply Ht1|]. by apply Hf1.
Qed.

Lemma later_override_wins_witness :
  let post := post_200 (sample_response [bravo; alpha]) in
  let w2 := state_after post (VNone, VNone, VInt 0, VStr "FALL")
              (state_after post (VNone, VNone, VInt 2019, VStr "WINTER")
                 initial_world) in
  VARIABLES w2 !! "year" = Some (VInt 2019) ∧
  VARIABLES w2 !! "season" = Some (VStr "FALL").
Proof.
  split.
  - apply (later_override_wins (post_200 (sample_response [bravo; alpha]))
             VNone VNone (VInt 2019) (VStr "WINTER")
             VNone VNone (VInt 0) (VStr "FALL") initial_world
             "year" (VInt 2019) (VInt 0)).
    do 2 (apply elem_of_cons; right). apply elem_of_cons; by left.
  - apply (later_override_wins (post_200 (sample_response [bravo; alpha]))
             VNone VNone (VInt 2019) (VStr "WINTER")
             VNone VNone (VInt 0) (VStr "FALL") initial_world
             "season" (VStr "WINTER") (VStr "FALL")).
    do 3 (apply elem_of_cons; right). apply elem_of_cons; by left.
Defined.

(** ** Exceptions and edge cases of [process_graphql] *)

Lemma bind_Raise {A B} (m : result A) (k : A → result B) e :
  bind m k = Raise e ↔ m = Raise e ∨ ∃ a, m = Ok a ∧ k a = Raise e.
Proof.
  destruct m as [a|e']; simpl; split.
  - eauto.
  - intros [?|(a' & Ha & Hk)]; [done|]. by simplify_eq.
  - intros [= ->]. by left.
  - intros [[= ->]|(a' & Ha & Hk)]; done.
Qed.

Lemma getitem_Raise {V} (d : gmap string V) k e :
  getitem d k = Raise e → e = KeyError k ∧ d !! k = None.
Proof. unfold getitem. destruct (d !! k); [done|]. by intros [= <-]. Qed.

(** X9: the test of the start date stops at the first component, in the
    order year, month, day, that is [null] and gives the fallback date
    without looking up the components after it, which may then be absent;
    an absent component raises [KeyError] only when it is reached, that is
    when the components before it are present and not [null]. *)
Theorem start_date_short_circuit (sd : json_obj) :
  (sd !! "year" = Some SNone → resolve_start_date sd = Ok "1.1.1999") ∧
  (sd !! "year" = None → resolve_start_date sd = Raise (KeyError "year")) ∧
  (∀ y, sd !! "year" = Some y → y ≠ SNone → sd !! "month" = Some SNone →
        resolve_start_date sd = Ok "1.1.1999") ∧
  (∀ y, sd !! "year" = Some y → y ≠ SNone → sd !! "month" = None →
        resolve_start_date sd = Raise (KeyError "month")) ∧
  (∀ y m, sd !! "year" = Some y → y ≠ SNone →
          sd !! "month" = Some m → m ≠ SNone → sd !! "day" = Some SNone →
          resolve_start_date sd = Ok "1.1.1999") ∧
  (∀ y m, sd !! "year" = Some y → y ≠ SNone →
          sd !! "month" = Some m → m ≠ SNone → sd !! "day" = None →
          resolve_start_date sd = Raise (KeyError "day")).
Proof.
  assert (∀ v, v ≠ SNone → is_not_None v = true) as Hset by by intros [].
  unfold resolve_start_date, getitem.
  repeat split.
  - by intros ->.
  - by intros ->.
  - intros y -> Hy ->. simpl. by rewrite (Hset _ Hy).
  - intros y -> Hy ->. simpl. by rewrite (Hset _ Hy).
  - intros y m -> Hy -> Hm ->. simpl. by rewrite (Hset _ Hy), (Hset _ Hm).
  - intros y m -> Hy -> Hm ->. simpl. by rewrite (Hset _ Hy), (Hset _ Hm).
Qed.

Lemma start_date_short_circuit_witness :
  resolve_start_date {[ "year" := SInt 2024; "month" := SNone ]}
    = Ok "1.1.1999" ∧
  resolve_start_date {[ "year" := SInt 2024; "month" := SInt 7 ]}
    = Raise (KeyError "day").
Proof.
  split.
  - apply (proj1 (proj2 (proj2 (start_date_short_circuit
             {[ "year" := SInt 2024; "month" := SNone ]}))) (SInt 2024)).
    + reflexivity.
    + discriminate.
    + reflexivity.
  - apply (proj2 (proj2 (proj2 (proj2 (proj2 (start_date_short_circuit
             {[ "year" := SInt 2024; "month" := SInt 7 ]})))))
             (SInt 2024) (SInt 7)).
    + reflexivity.
    + discriminate.
    + reflexivity.
    + discriminate.
    + reflexivity.
Defined.

Lemma resolve_name_Ok (e : media_entry) k v :
  resolve_name e k = Ok v →
  ∃ t : json_obj, e !! "title" = Some t ∧
    v = match t !! k with
        | Some v => if is_not_None v then v else SStr ""
        | None => SStr ""
        end.
Proof.
  destruct (e !! "title") as [t|] eqn:Ht.
  - rewrite (resolve_name_lookup _ _ _ Ht). intros [= <-]. eauto.
  - unfold resolve_name, getitem. by rewrite Ht.
Qed.

Lemma resolve_name_Raise (e : media_entry) k ex :
  resolve_name e k = Raise ex → ex = KeyError "title".
Proof.
  destruct (e !! "title") as [t|] eqn:Ht.
  - by rewrite (resolve_name_lookup _ _ _ Ht).
  - unfold resolve_name, getitem. rewrite Ht. simpl. by intros [= <-].
Qed.

Lemma resolve_start_date_Raise (sd : json_obj) ex :
  resolve_start_date sd = Raise ex →
  ex = KeyError "year" ∨ ex = KeyError "month" ∨ ex = KeyError "day".
Proof.
  unfold resolve_start_date, getitem.
  destruct (sd !! "year") as [y|]; simpl; [|intros [= <-]; auto].
  destruct (is_not_None y); [|done].
  destruct (sd !! "month") as [m|]; simpl; [|intros [= <-]; auto].
  destruct (is_not_None m); [|done].
  destruct (sd !! "day") as [d|]; simpl; [|intros [= <-]; auto].
  by destruct (is_not_None d).
Qed.

Lemma process_element_Raise (e : media_entry) ex :
  process_element e = Raise ex →
  ∃ k, ex = KeyError k ∧ k ∈ ["startDate"; "year"; "month"; "day"; "title"].
Proof.
  unfold process_element. rewrite !bind_Raise.
  intros [H|(sd & _ & H)].
  { apply getitem_Raise in H as [-> _]. eexists. split; [done|].
    rewrite !elem_of_cons. tauto. }
  apply bind_Raise in H as [H|(ds & _ & H)].
  { apply resolve_start_date_Raise in H as [->|[->| ->]];
      (eexists; split; [done|]); rewrite !elem_of_cons; tauto. }
  apply bind_Raise in H as [H|(ro & _ & H)].
  { apply resolve_name_Raise in H as ->. eexists. split; [done|].
    rewrite !elem_of_cons. tauto. }
  apply bind_Raise in H as [H|(en & _ & H)]; [|done].
  apply resolve_name_Raise in H as ->. eexists. split; [done|].
  rewrite !elem_of_cons. tauto.
Qed.

Lemma extract_elements_Raise media ex :
  extract_elements media = Raise ex →
  ∃ e, e ∈ media ∧ process_element e = Raise ex.
Proof.
  induction media as [|e media IH]; simpl; [done|].
  rewrite bind_Raise. intros [H|(r & _ & H)].
  - exists e. split; [apply elem_of_cons; by left|done].
  - apply bind_Raise in H as [H|(rs & _ & H)]; [|done].
    destruct (IH H) as (e' & Hin & He'). exists e'.
    split; [apply elem_of_cons; by right|done].
Qed.

Lemma sorted_insert_Raise {A} (key : A → scalar) x l ex :
  sorted_insert key x l = Raise ex → ex = TypeError.
Proof.
  induction l as [|y l IH]; simpl; [done|].
  rewrite bind_Raise. intros [H|(b & _ & H)].
  - destruct (key y), (key x); simpl in H; congruence.
  - destruct b; [|done].
    apply bind_Raise in H as [H|(r & _ & H)]; [by apply IH|done].
Qed.

Lemma sorted_Raise {A} (key : A → scalar) l ex :
  sorted key l = Raise ex → ex = TypeError.
Proof.
  induction l as [|x l IH]; simpl; [done|].
  rewrite bind_Raise. intros [H|(s & _ & H)]; [by apply IH|].
  by eapply sorted_insert_Raise.
Qed.

(** X10: the only exceptions [process_graphql] ends with are [TypeError]
    (from comparing titles in the sort) and [KeyError] for one of the keys
    it indexes without a test: [data], [Page], [media], [startDate], [year],
    [month], [day], [title].  It never raises for [romaji] or [english],
    which it only reads after the membership test. *)
Theorem process_graphql_exceptions (r : graphql_response) (ex : exn) :
  process_graphql r = Raise ex →
  ex = TypeError ∨ ∃ k, ex = KeyError k ∧ k ∈ unguarded_keys.
Proof.
  unfold process_graphql, media_object_of, unguarded_keys.
  rewrite !bind_Raise. intros [H|(media & _ & H)].
  - right. destruct H as [H|(d & _ & H)].
    { apply getitem_Raise in H as [-> _]. eexists. split; [done|].
      rewrite !elem_of_cons. tauto. }
    apply bind_Raise in H as [H|(p & _ & H)];
      apply getitem_Raise in H as [-> _]; (eexists; split; [done|]);
      rewrite !elem_of_cons; tauto.
  - apply bind_Raise in H as [H|(rows & _ & H)].
    + right. apply extract_elements_Raise in H as (e & _ & H).
      apply process_element_Raise in H as (k & -> & Hk).
      exists k. split; [done|].
      repeat (apply elem_of_cons in Hk as [->|Hk]);
        [| | | | |by apply elem_of_nil in Hk];
        rewrite !elem_of_cons; tauto.
    + left. by eapply sorted_Raise.
Qed.

Lemma process_graphql_exceptions_witness :
  KeyError "year" = TypeError ∨
  ∃ k, KeyError "year" = KeyError k ∧ k ∈ unguarded_keys.
Proof.
  apply (process_graphql_exceptions (sample_response [bravo; no_year])).
  reflexivity.
Defined.

(** X11: the name cells of a row are never [None]: a [null] title is
    replaced by the empty string, so the table never shows a title as the
    text of [None]. *)
Theorem row_names_not_None (e : media_entry) (r : row) :
  process_element e = Ok r →
  romaji_name r ≠ SNone ∧ english_name r ≠ SNone.
Proof.
  unfold process_element. intros H.
  apply bind_Ok in H as (sd & _ & H).
  apply bind_Ok in H as (ds & _ & H).
  apply bind_Ok in H as (ro & Hro & H).
  apply bind_Ok in H as (en & Hen & [= <-]). simpl.
  apply resolve_name_Ok in Hro as (t & _ & ->).
  apply resolve_name_Ok in Hen as (t' & _ & ->).
  split.
  - by destruct (t !! "romaji") as [[]|].
  - by destruct (t' !! "english") as [[]|].
Qed.

Lemma row_names_not_None_witness :
  ∃ r, process_element foo_null = Ok r ∧
       romaji_name r ≠ SNone ∧ english_name r ≠ SNone.
Proof.
  exists (Row (SStr "") (SStr "Foo") "3.7.2024").
  split; [reflexivity|].
  apply (row_names_not_None foo_null). reflexivity.
Defined.

Lemma resolve_name_insert_other (e : media_entry) k (o : json_obj) name :
  k ≠ "title" → resolve_name (<[k := o]> e) name = resolve_name e name.
Proof.
  intros Hk. unfold resolve_name, getitem. by rewrite lookup_insert_ne.
Qed.

Lemma resolve_start_date_insert_other (sd : json_obj) k v :
  k ∉ ["year"; "month"; "day"] →
  resolve_start_date (<[k := v]> sd) = resolve_start_date sd.
Proof.
  rewrite !not_elem_of_cons. intros (? & ? & ? & _).
  unfold resolve_start_date, getitem. by rewrite !lookup_insert_ne.
Qed.

(** X12: a row depends on nothing but [title.romaji], [title.english] and
    the [year], [month], [day] of [startDate]: adding or changing any other
    field of the entry ([id], [endDate], [genres], ...), any other key of
    the title ([native]) or any other key of [startDate] leaves the result
    of extracting the entry unchanged. *)
Theorem process_element_ignores_other_fields
    (e : media_entry) (t sd : json_obj) :
  (∀ k o, k ≠ "title" → k ≠ "startDate" →
          process_element (<[k := o]> e) = process_element e) ∧
  (∀ k v, k ≠ "romaji" → k ≠ "english" →
          process_element (<["title" := <[k := v]> t]> e) =
          process_element (<["title" := t]> e)) ∧
  (∀ k v, k ∉ ["year"; "month"; "day"] →
          process_element (<["startDate" := <[k := v]> sd]> e) =
          process_element (<["startDate" := sd]> e)).
Proof.
  repeat split.
  - intros k o Ht Hsd. unfold process_element.
    rewrite !resolve_name_insert_other by done.
    unfold getitem. by rewrite lookup_insert_ne.
  - intros k v Hro Hen. apply process_element_title_irrelevant.
    + by rewrite lookup_insert_ne.
    + by rewrite lookup_insert_ne.
  - intros k v Hk. unfold process_element.
    rewrite !resolve_name_insert_other by done.
    unfold getitem. rewrite !lookup_insert_eq. simpl.
    by rewrite resolve_start_date_insert_other.
Qed.

Lemma process_element_ignores_other_fields_witness :
  process_element
    (<["endDate" := sample_date (SInt 2024) (SInt 9) (SInt 25)]> bravo)
  = process_element bravo.
Proof.
  apply (proj1 (process_element_ignores_other_fields bravo ∅ ∅)); discriminate.
Defined.

Lemma extract_elements_first_bad good bad rest ex :
  Forall (λ e, ∃ row, process_element e = Ok row) good →
  process_element bad = Raise ex →
  extract_elements (good ++ bad :: rest)%list = Raise ex.
Proof.
  intros Hgood Hbad. induction Hgood as [|e good [row He] _ IH]; simpl.
  - by rewrite Hbad.
  - rewrite He. simpl. by rewrite IH.
Qed.

(** X13: there is no partial result: the first entry of the media list for
    which the extraction raises makes [process_graphql] raise that very
    exception, whatever the entries after it are. *)
Theorem first_bad_entry_aborts
    (r : graphql_response) (good : list media_entry) (bad : media_entry)
    (rest : list media_entry) (ex : exn) :
  media_object_of r = Ok (good ++ bad :: rest)%list →
  Forall (λ e, ∃ row, process_element e = Ok row) good →
  process_element bad = Raise ex →
  process_graphql r = Raise ex.
Proof.
  intros Hm Hgood Hbad. unfold process_graphql. rewrite Hm. simpl.
  by rewrite (extract_elements_first_bad good bad rest ex Hgood Hbad).
Qed.

Lemma first_bad_entry_aborts_witness :
  process_graphql
    (sample_response
       [bravo; no_year; {[ "startDate" := sample_date SNone SNone SNone ]}])
  = Raise (KeyError "year").
Proof.
  apply (first_bad_entry_aborts _ [bravo] no_year
           [{[ "startDate" := sample_date SNone SNone SNone ]}]).
  - reflexivity.
  - constructor; [|constructor]. eexists. reflexivity.
  - reflexivity.
Defined.

(** X14: an empty media list is not an error: [process_graphql] returns the
    empty list, and [extract_graphql_data] then prints an empty table with
    the count 0 and overwrites the clipboard with the empty string. *)
Theorem empty_media_list
    (r : graphql_response)
    post (status_var format_var year_var season_var : value) (w : world)
    (response : http_response) :
  media_object_of r = Ok [] →
  post (sent w)
       (Request GRAPH_QL_URL json_headers QUERY_STRING
          (overridden status_var format_var year_var season_var (VARIABLES w)))
    = Ok response →
  status_code response = 200 →
  json response = Ok (Some r) →
  process_graphql r = Ok [] ∧
  let run := extract_graphql_data post status_var format_var
               year_var season_var w in
  fst run = Ok tt ∧
  clipboard (snd run) = "" ∧
  stdout (snd run) =
    stdout w +:+
    nl +:+ "--------------------" +:+ nl +:+ nl +:+
    nl +:+
    nl +:+ nl +:+ "--------------------" +:+ nl +:+ nl +:+ nl +:+
    "Elements: 0" +:+ nl.
Proof.
  intros Hm Hpost H200 Hjson.
  assert (process_graphql r = Ok []) as Hp.
  { unfold process_graphql. by rewrite Hm. }
  split; [done|]. cbv zeta.
  rewrite extract_graphql_data_run. cbv zeta. rewrite Hpost.
  unfold answer. rewrite H200, Hjson. simpl. rewrite Hp.
  rewrite tabulate_anichart_data_run. simpl. repeat split.
  by rewrite !string_app_assoc.
Qed.

Lemma empty_media_list_witness :
  process_graphql (sample_response []) = Ok [] ∧
  let run := main (post_200 (sample_response [])) initial_world in
  fst run = Ok tt ∧
  clipboard (snd run) = "" ∧
  stdout (snd run) =
    stdout initial_world +:+
    nl +:+ "--------------------" +:+ nl +:+ nl +:+
    nl +:+
    nl +:+ nl +:+ "--------------------" +:+ nl +:+ nl +:+ nl +:+
    "Elements: 0" +:+ nl.
Proof.
  apply (empty_media_list (sample_response [])
           (post_200 (sample_response []))
           VNone (VList ["TV"]) (VInt 2024) (VStr "SUMMER") initial_world
           (Response 200 (Ok (Some (sample_response []))))).
  - reflexivity.
  - reflexivity.
  - reflexivity.
  - reflexivity.
Defined.

(** ** The sort of [process_graphql] *)

Lemma lt_Ok_same_type a b v :
  lt a b = Ok v →
  (is_text a = true ∧ is_text b = true) ∨ (is_int a = true ∧ is_int b = true).
Proof. destruct a, b; simpl; try done; auto. Qed.

Lemma sorted_insert_int {A} (key : A → scalar) x l :
  is_int (key x) = true → Forall (λ y, is_int (key y) = true) l →
  ∃ l', sorted_insert key x l = Ok l'.
Proof.
  intros Hx. induction 1 as [|y l Hy _ [r IH]]; simpl; [eauto|].
  destruct (key y), (key x); try done; simpl.
  destruct (_ <? _)%Z; [|eauto]. rewrite IH. simpl. eauto.
Qed.

Lemma sorted_int {A} (key : A → scalar) l :
  Forall (λ y, is_int (key y) = true) l → ∃ l', sorted key l = Ok l'.
Proof.
  induction 1 as [|x l Hx Hl [s IH]]; simpl; [eauto|].
  rewrite IH. simpl. apply sorted_insert_int; [done|].
  by rewrite (sorted_Permutation _ _ _ IH).
Qed.

Lemma sorted_Ok_same_type {A} (key : A → scalar) l out :
  sorted key l = Ok out →
  (length l ≤ 1)%nat ∨
  Forall (λ y, is_text (key y) = true) l ∨
  Forall (λ y, is_int (key y) = true) l.
Proof.
  revert out. induction l as [|x l IH]; intros out; simpl; [left; lia|].
  intros H. apply bind_Ok in H as (s & Hs & Hins).
  destruct l as [|y0 l0]; [left; simpl; lia|]. right.
  pose proof (sorted_Permutation _ _ _ Hs) as Hperm.
  destruct s as [|y s'].
  { by apply Permutation_nil_cons in Hperm. }
  simpl in Hins. apply bind_Ok in Hins as (b & Hlt & _).
  assert (y ∈ y0 :: l0) as Hy by (rewrite <- Hperm; apply elem_of_cons; by left).
  assert (∀ P : A → Prop, P y → (length (y0 :: l0) ≤ 1)%nat → Forall P (y0 :: l0))
    as Hone.
  { intros P HP Hlen. destruct l0; [|simpl in Hlen; lia].
    apply list_elem_of_singleton in Hy as <-. by constructor. }
  apply lt_Ok_same_type in Hlt as [[Hty Htx]|[Hiy Hix]].
  - left. constructor; [done|].
    destruct (IH _ Hs) as [Hlen|[Ht|Hi]]; [by apply Hone|done|].
    rewrite Forall_forall in Hi. specialize (Hi _ Hy).
    by destruct (key y).
  - right. constructor; [done|].
    destruct (IH _ Hs) as [Hlen|[Ht|Hi]]; [by apply Hone| |done].
    rewrite Forall_forall in Ht. specialize (Ht _ Hy).
    by destruct (key y).
Qed.

(** X15: the sort fails only with [TypeError], and it does fail with
    [TypeError] whenever a string key and an integer key are both in the
    list, wherever they stand.  For [process_graphql] this is a numeric
    English title in the same response as a textual, [null] or absent
    one. *)
Theorem sorted_mixed_keys_raise {A} (key : A → scalar) (l : list A) :
  (∀ ex, sorted key l = Raise ex → ex = TypeError) ∧
  (∀ x y, x ∈ l → y ∈ l →
          is_text (key x) = true → is_int (key y) = true →
          sorted key l = Raise TypeError).
Proof.
  split; [intros ex; apply sorted_Raise|].
  intros x y Hx Hy Htx Hiy.
  destruct (sorted key l) as [out|ex] eqn:Hs.
  - destruct (sorted_Ok_same_type key l out Hs) as [Hlen|[Ht|Hi]].
    + destruct l as [|z [|z' l]]; [by apply elem_of_nil in Hx| |simpl in Hlen; lia].
      apply list_elem_of_singleton in Hx as ->.
      apply list_elem_of_singleton in Hy as ->.
      by destruct (key z).
    + rewrite Forall_forall in Ht. specialize (Ht _ Hy). by destruct (key y).
    + rewrite Forall_forall in Hi. specialize (Hi _ Hx). by destruct (key x).
  - by rewrite (sorted_Raise key l ex Hs).
Qed.

Lemma sorted_mixed_keys_raise_witness :
  sorted english_name
    [Row (SStr "") (SStr "Alpha") "1.1.1999";
     Row (SStr "") (SStr "Bravo") "1.1.1999";
     Row (SStr "") (SInt 86) "1.1.1999"]
  = Raise TypeError.
Proof.
  apply (proj2 (sorted_mixed_keys_raise english_name _)
           (Row (SStr "") (SStr "Alpha") "1.1.1999")
           (Row (SStr "") (SInt 86) "1.1.1999")).
  - apply elem_of_cons; by left.
  - do 2 (apply elem_of_cons; right). apply elem_of_cons; by left.
  - reflexivity.
  - reflexivity.
Defined.

(** X16: sorting is idempotent: sorting again by the same key the list that
    the sort returned gives that list back. *)
Theorem sorted_idempotent {A} (key : A → scalar) (l out : list A) :
  Forall (λ y, is_text (key y) = true) l →
  sorted key l = Ok out →
  sorted key out = Ok out.
Proof.
  intros Ht Hout.
  assert (Forall (λ y, is_text (key y) = true) out) as Ht'
    by by rewrite (sorted_Permutation _ _ _ Hout).
  destruct (sorted_text key out Ht') as [out' Hout']. rewrite Hout'. f_equal.
  symmetry. eapply (sorted_unique key out out' out); [done|done| |done].
  exact (sorted_StronglySorted key l out Ht Hout).
Qed.

Lemma sorted_idempotent_witness :
  sorted english_name
    [Row (SStr "Arufa") (SStr "Alpha") "1.1.1999";
     Row (SStr "Buraboo") (SStr "Bravo") "3.7.2024"]
  = Ok [Row (SStr "Arufa") (SStr "Alpha") "1.1.1999";
        Row (SStr "Buraboo") (SStr "Bravo") "3.7.2024"].
Proof.
  apply (sorted_idempotent english_name
           [Row (SStr "Buraboo") (SStr "Bravo") "3.7.2024";
            Row (SStr "Arufa") (SStr "Alpha") "1.1.1999"]).
  - repeat constructor.
  - reflexivity.
Defined.

(** X17: what [process_graphql] returns is the only arrangement of the
    extracted rows that is ordered by English title and keeps the rows of
    each title in their input order; any stable sort by that key returns
    the same list. *)
Theorem process_graphql_unique_stable_order
    (r : graphql_response) (media : list media_entry)
    (rows out out' : list row) :
  media_object_of r = Ok media →
  extract_elements media = Ok rows →
  Forall (λ x, is_text (english_name x) = true) rows →
  process_graphql r = Ok out →
  StronglySorted
    (λ x y, String.leb (str (english_name x)) (str (english_name y)) = true)
    out' →
  (∀ k, filter (λ x, english_name x = k) out' =
        filter (λ x, english_name x = k) rows) →
  out' = out.
Proof.
  intros Hm Hrows Ht Hp Hs Hf.
  unfold process_graphql in Hp. rewrite Hm in Hp. simpl in Hp.
  rewrite Hrows in Hp. simpl in Hp.
  by eapply (sorted_unique english_name rows out out').
Qed.

Lemma process_graphql_unique_stable_order_witness :
  [Row (SStr "Arufa") (SStr "Alpha") "1.1.1999";
   Row (SStr "Buraboo") (SStr "Bravo") "3.7.2024"]
  = [Row (SStr "Arufa") (SStr "Alpha") "1.1.1999";
     Row (SStr "Buraboo") (SStr "Bravo") "3.7.2024"].
Proof.
  apply (process_graphql_unique_stable_order
           (sample_response [bravo; alpha]) [bravo; alpha]
           [Row (SStr "Buraboo") (SStr "Bravo") "3.7.2024";
            Row (SStr "Arufa") (SStr "Alpha") "1.1.1999"]).
  - reflexivity.
  - reflexivity.
  - repeat constructor.
  - reflexivity.
  - repeat constructor.
  - intros k. rewrite !filter_cons, !filter_nil.
    repeat case_decide; simplify_eq; done.
Defined.

Lemma extract_elements_Permutation media1 media2 rows1 :
  media1 ≡ₚ media2 →
  extract_elements media1 = Ok rows1 →
  ∃ rows2, extract_elements media2 = Ok rows2 ∧ rows1 ≡ₚ rows2.
Proof.
  intros Hperm. revert rows1.
  induction Hperm as [|e l l' _ IH|e1 e2 l|l l' l'' _ IH1 _ IH2];
    intros rows1; simpl.
  - intros [= <-]. eauto.
  - intros H. apply bind_Ok in H as (r & Hr & H).
    apply bind_Ok in H as (rs & Hrs & [= <-]).
    destruct (IH _ Hrs) as (rs' & Hrs' & Hp).
    exists (r :: rs'). rewrite Hr. simpl. rewrite Hrs'. simpl.
    split; [done|]. by constructor.
  - intros H. apply bind_Ok in H as (r2 & Hr2 & H).
    apply bind_Ok in H as (rs' & H & [= <-]).
    apply bind_Ok in H as (r1 & Hr1 & H).
    apply bind_Ok in H as (rs & Hrs & [= <-]).
    exists (r1 :: r2 :: rs). rewrite Hr1. simpl. rewrite Hr2. simpl.
    rewrite Hrs. simpl. split; [done|]. apply Permutation_swap.
  - intros H. destruct (IH1 _ H) as (rows2 & H2 & Hp12).
    destruct (IH2 _ H2) as (rows3 & H3 & Hp23).
    exists rows3. split; [done|]. by etrans.
Qed.

Lemma NoDup_fmap_eq {A B} (f : A → B) (l : list A) x y :
  NoDup (f <$> l) → x ∈ l → y ∈ l → f x = f y → x = y.
Proof.
  induction l as [|z l IH]; simpl; [by intros _ ?%elem_of_nil|].
  rewrite NoDup_cons, !elem_of_cons. intros [Hz Hnd] [->|Hx] [->|Hy] Hf.
  - done.
  - destruct Hz. rewrite Hf. by apply list_elem_of_fmap_2.
  - destruct Hz. rewrite <- Hf. by apply list_elem_of_fmap_2.
  - by apply IH.
Qed.

(** X18: when the English titles of the rows are pairwise different
    strings, the result of [process_graphql] does not depend on the order
    in which the response lists the media entries. *)
Theorem process_graphql_order_independent
    (r1 r2 : graphql_response) (media1 media2 : list media_entry)
    (out : list row) :
  media_object_of r1 = Ok media1 →
  media_object_of r2 = Ok media2 →
  media1 ≡ₚ media2 →
  process_graphql r1 = Ok out →
  Forall (λ x, is_text (english_name x) = true) out →
  NoDup (english_name <$> out) →
  process_graphql r2 = Ok out.
Proof.
  intros Hm1 Hm2 Hperm Hp Ht Hnd.
  unfold process_graphql in *. rewrite Hm1 in Hp. rewrite Hm2. simpl in *.
  apply bind_Ok in Hp as (rows1 & Hrows1 & Hs1).
  destruct (extract_elements_Permutation _ _ _ Hperm Hrows1)
    as (rows2 & Hrows2 & Hp12).
  rewrite Hrows2. simpl.
  pose proof (sorted_Permutation _ _ _ Hs1) as Hp1.
  assert (Forall (λ x, is_text (english_name x) = true) rows1) as Ht1
    by by rewrite <- Hp1.
  assert (Forall (λ x, is_text (english_name x) = true) rows2) as Ht2
    by by rewrite <- Hp12.
  destruct (sorted_text english_name rows2 Ht2) as (out2 & Hs2).
  rewrite Hs2. f_equal.
  pose proof (sorted_Permutation _ _ _ Hs2) as Hp2.
  apply (StronglySorted_unique_strong
           (λ a b, text_le (english_name a) (english_name b))).
  - intros x1 x2 Hx1 Hx2 H12 H21.
    assert (x1 ∈ out) as Hx1' by by rewrite Hp1, Hp12, <- Hp2.
    rewrite Forall_forall in Ht.
    apply (NoDup_fmap_eq english_name out); [done..|].
    apply text_le_antisym; auto.
  - exact (sorted_StronglySorted english_name rows2 out2 Ht2 Hs2).
  - exact (sorted_StronglySorted english_name rows1 out Ht1 Hs1).
  - by rewrite Hp2, <- Hp12, <- Hp1.
Qed.

Lemma process_graphql_order_independent_witness :
  process_graphql (sample_response [alpha; foo_null; bravo]) =
  Ok [Row (SStr "Arufa") (SStr "Alpha") "1.1.1999";
      Row (SStr "Buraboo") (SStr "Bravo") "3.7.2024";
      Row (SStr "") (SStr "Foo") "3.7.2024"].
Proof.
  apply (process_graphql_order_independent
           (sample_response [bravo; alpha; foo_null])
           (sample_response [alpha; foo_null; bravo])
           [bravo; alpha; foo_null] [alpha; foo_null; bravo]).
  - reflexivity.
  - reflexivity.
  - etrans; [apply Permutation_swap|]. apply Permutation_skip, Permutation_swap.
  - reflexivity.
  - repeat constructor.
  - repeat (apply NoDup_cons; split;
            [rewrite ?elem_of_cons, elem_of_nil; intros H;
             repeat destruct H as [H|H]; done|]).
    apply NoDup_nil_2.
Defined.

(** ** The table text *)

Lemma fold_left_loop_string (data_set : list row) (acc : string) :
  fold_left (λ acc entry, acc +:+ loop_string entry) data_set acc =
  acc +:+ string_to_copy data_set.
Proof.
  unfold string_to_copy. revert acc.
  induction data_set as [|r l IH]; intros acc; simpl.
  - by rewrite string_app_empty_r.
  - rewrite (IH (acc +:+ loop_string r)), (IH ("" +:+ loop_string r)).
    change ("" +:+ loop_string r) with (loop_string r).
    by rewrite string_app_assoc.
Qed.

(** X19: the table text is built row by row: the text of a list of rows
    followed by another is the text of the first followed by the text of
    the second, and the text is empty only for the empty list. *)
Theorem string_to_copy_app (rows1 rows2 : list row) :
  string_to_copy (rows1 ++ rows2) =
    string_to_copy rows1 +:+ string_to_copy rows2 ∧
  (string_to_copy rows1 = "" ↔ rows1 = []).
Proof.
  split.
  - unfold string_to_copy at 1. rewrite fold_left_app.
    fold (string_to_copy rows1). apply fold_left_loop_string.
  - split; [|by intros ->].
    destruct rows1 as [|r l]; [done|].
    unfold string_to_copy. simpl. rewrite fold_left_loop_string.
    unfold loop_string.
    destruct (str (romaji_name r)); discriminate.
Qed.

Lemma string_to_copy_app_witness :
  string_to_copy
    ([Row (SStr "Arufa") (SStr "Alpha") "1.1.1999"] ++
     [Row (SStr "Buraboo") (SStr "Bravo") "3.7.2024"]) =
  string_to_copy [Row (SStr "Arufa") (SStr "Alpha") "1.1.1999"] +:+
  string_to_copy [Row (SStr "Buraboo") (SStr "Bravo") "3.7.2024"].
Proof.
  exact (proj1 (string_to_copy_app
                  [Row (SStr "Arufa") (SStr "Alpha") "1.1.1999"]
                  [Row (SStr "Buraboo") (SStr "Bravo") "3.7.2024"])).
Defined.

(** ** Whenever [process_graphql] returns *)

(** X20: whenever [process_graphql] returns a list, with no assumption on
    the shape of the entries, the media list was present, every entry was
    extracted, and the list returned is a rearrangement of the rows of the
    entries: it has exactly one row per media entry. *)
Theorem process_graphql_returns_all_rows
    (r : graphql_response) (out : list row) :
  process_graphql r = Ok out →
  ∃ media rows,
    media_object_of r = Ok media ∧
    Forall2 (λ e row, process_element e = Ok row) media rows ∧
    out ≡ₚ rows ∧
    length out = length media.
Proof.
  unfold process_graphql. intros H.
  apply bind_Ok in H as (media & Hm & H).
  apply bind_Ok in H as (rows & Hrows & Hs).
  apply extract_elements_Forall2 in Hrows.
  exists media, rows. repeat split; [done|done|by eapply sorted_Permutation|].
  rewrite (sorted_length _ _ _ Hs). symmetry. by eapply Forall2_length.
Qed.

Lemma process_graphql_returns_all_rows_witness :
  ∃ media rows,
    media_object_of (sample_response [bravo; alpha]) = Ok media ∧
    Forall2 (λ e row, process_element e = Ok row) media rows ∧
    [Row (SStr "Arufa") (SStr "Alpha") "1.1.1999";
     Row (SStr "Buraboo") (SStr "Bravo") "3.7.2024"] ≡ₚ rows ∧
    length [Row (SStr "Arufa") (SStr "Alpha") "1.1.1999";
            Row (SStr "Buraboo") (SStr "Bravo") "3.7.2024"] = length media.
Proof.
  apply (process_graphql_returns_all_rows (sample_response [bravo; alpha])).
  reflexivity.
Defined.
